(** * The single-GPU graph handle of the cugraph C API

    A shallow embedding of [cpp/src/c_api/graph_sg.cpp]: the two entry points
    [cugraph_sg_graph_create] and [cugraph_sg_graph_free], and the two functors
    they hand to the type dispatcher.  C++ objects created with [new] live in
    an explicit store; a C++ exception and a dereference of a null pointer are
    two distinct ways for a computation not to return. *)

From stdpp Require Import base option list gmap strings.
From stdpp Require Import sorting.
From Stdlib Require Import ZArith NArith.

Local Open Scope string_scope.

(** * Part I: the program *)

(** ** Plain data of the C interface *)

(** The runtime tag of a type-erased array ([cugraph_c/array.h]). *)
Inductive data_type_id_t := INT32 | INT64 | FLOAT32 | FLOAT64.

#[global] Instance data_type_id_t_eq_dec : EqDecision data_type_id_t.
Proof. solve_decision. Defined.

(** The status codes the entry points return ([cugraph_c/error.h]). *)
Inductive cugraph_error_code_t :=
| CUGRAPH_SUCCESS
| CUGRAPH_UNKNOWN_ERROR
| CUGRAPH_INVALID_INPUT
| CUGRAPH_UNSUPPORTED_TYPE_COMBINATION.

#[global] Instance cugraph_error_code_t_eq_dec : EqDecision cugraph_error_code_t.
Proof. solve_decision. Defined.

(** [c_api::cugraph_error_t]: an error object is its message. *)
Record cugraph_error_t := { error_message_ : string }.

(** [c_api::cugraph_type_erased_device_array_t]: the tag, the element count
    [size_] (a [size_t]) and the buffer, one integer per element (the bit
    pattern of the element, whatever its tag). *)
Record cugraph_type_erased_device_array_t := {
  type_ : data_type_id_t;
  size_ : N;
  data_ : list Z
}.

(** [sizeof] of the element type a tag stands for. *)
Definition sizeof (t : data_type_id_t) : nat :=
  match t with
  | INT32 | FLOAT32 => 4
  | INT64 | FLOAT64 => 8
  end.

(** The two 32-bit words of a 64-bit element, low word first (the byte
    order of the device and of the host). *)
Definition words (x : Z) : list Z :=
  [Z.land x (Z.ones 32); Z.land (Z.shiftr x 32) (Z.ones 32)].

(** The 64-bit elements made of consecutive pairs of 32-bit words. *)
Fixpoint join_words (l : list Z) : list Z :=
  match l with
  | lo :: hi :: l' => Z.lor (Z.land lo (Z.ones 32)) (Z.shiftl hi 32) :: join_words l'
  | _ => []
  end.

(** [as_type<T>()]: the buffer reinterpreted as elements of [T], whatever the
    tag.  Elements of the same size keep their bit patterns; a buffer of
    64-bit elements read as 32-bit elements is the sequence of its words. *)
Definition as_type (T : data_type_id_t) (a : cugraph_type_erased_device_array_t) : list Z :=
  if decide (sizeof T = sizeof (type_ a)) then data_ a
  else if decide (sizeof T < sizeof (type_ a)) then data_ a ≫= words
  else join_words (data_ a).

(** [raft::copy<T>(..., a->as_type<T>(), a->size_, ...)]: the first [size_]
    elements of the buffer read as [T]. *)
Definition copy_as (T : data_type_id_t) (a : cugraph_type_erased_device_array_t) : list Z :=
  take (N.to_nat (size_ a)) (as_type T a).

(** Whether that copy stays inside the buffer, which holds [size_] elements
    of the tag's type: always when [T] is no wider than these, otherwise
    only when there is nothing to copy. *)
Definition copy_in_bounds (T : data_type_id_t) (a : cugraph_type_erased_device_array_t) :
    bool :=
  bool_decide (sizeof T ≤ sizeof (type_ a))%nat || (size_ a =? 0)%N.

(** The copy of an array read at its own tag. *)
Definition copy (a : cugraph_type_erased_device_array_t) : list Z :=
  take (N.to_nat (size_ a)) (data_ a).

Record cugraph_graph_properties_t := {
  is_symmetric : bool;
  is_multigraph : bool
}.

(** The five template arguments a functor is instantiated at:
    vertex, edge and weight type, [store_transposed], [multi_gpu]. *)
Definition type_tuple : Type :=
  data_type_id_t * data_type_id_t * data_type_id_t * bool * bool.

(** [c_api::cugraph_graph_t], the struct behind the opaque graph pointer.
    [graph_] and [number_map_] are the addresses of the two owned objects. *)
Record cugraph_graph_t := {
  vertex_type_ : data_type_id_t;
  edge_type_ : data_type_id_t;
  weight_type_ : data_type_id_t;
  store_transposed_ : bool;
  multi_gpu_ : bool;
  graph_ : nat;
  number_map_ : nat
}.

(** ** What the file calls and does not define

    The graph class, the trait that says which type triples are compiled, and
    the builder are external to [graph_sg.cpp]; they are taken as given. *)
Class Collaborators := {
  (** [cugraph::graph_t<...>] *)
  graph_t : Type;
  (** [graph_t(handle)], the graph before the builder's result is assigned *)
  empty_graph : graph_t;
  get_number_of_vertices : graph_t → nat;
  (** [view().get_local_vertex_first()] *)
  get_local_vertex_first : graph_t → Z;
  (** [cugraph::is_candidate<vertex_t, edge_t, weight_t>::value] *)
  is_candidate : data_type_id_t → data_type_id_t → data_type_id_t → bool;
  (** [create_graph_from_edgelist<...>]: the instantiation, the three edge
      list buffers, the properties, [renumber] and [check]; it either throws
      ([inl], with [what()]) or gives the graph and the optional new map. *)
  create_graph_from_edgelist :
    type_tuple → list Z → list Z → option (list Z) →
    cugraph_graph_properties_t → bool → bool →
    string + (graph_t * option (list Z));
  (** the text [abstract_functor::unsupported] stores in the error object *)
  unsupported_message : string
}.

(** ** Computations that may throw or be undefined *)

Inductive outcome (S A : Type) : Type :=
| Returns (a : A) (s : S)
| Throws (what : string) (s : S)
| Undefined.

Arguments Returns {S A} a s.
Arguments Throws {S A} what s.
Arguments Undefined {S A}.

Definition M (S A : Type) : Type := S → outcome S A.

Definition ret {S A} (a : A) : M S A := λ s, Returns a s.

Definition bind {S A B} (m : M S A) (k : A → M S B) : M S B :=
  λ s, match m s with
       | Returns a s' => k a s'
       | Throws w s' => Throws w s'
       | Undefined => Undefined
       end.

Definition throw {S A} (what : string) : M S A := λ s, Throws what s.

Definition undefined {S A} : M S A := λ _, Undefined.

(** [try { body } catch (std::exception const& ex) { handler(ex.what()) }] *)
Definition try_catch {S A} (body : M S A) (handler : string → M S A) : M S A :=
  λ s, match body s with
       | Throws w s' => handler w s'
       | r => r
       end.

(** [p->f] on a pointer that may be null. *)
Definition arrow {S A B} (p : option A) (f : A → B) : M S B :=
  match p with
  | Some a => ret (f a)
  | None => undefined
  end.

(** [!p] *)
Definition is_null {A} (p : option A) : bool :=
  match p with
  | Some _ => false
  | None => true
  end.

Declare Scope cpp_scope.
Delimit Scope cpp_scope with cpp.
Notation "x <- m ;; k" := (bind m (λ x, k))
  (at level 100, m at next level, right associativity) : cpp_scope.
Notation "m ;; k" := (bind m (λ _, k))
  (at level 100, right associativity) : cpp_scope.
Local Open Scope cpp_scope.

(** ** The store of objects made with [new]

    A graph is stored with the instantiation that constructed it, a vector
    with its element type.  Addresses are handed out in increasing order.
    Deleting an object through a pointer cast to another type is undefined. *)

Inductive object `{Collaborators} : Type :=
| Graph (ty : type_tuple) (g : graph_t)
| DeviceUVector (ty : data_type_id_t) (elems : list Z)
| GraphHandle (h : cugraph_graph_t).

Record memory `{Collaborators} := {
  cells : gmap nat object;
  next : nat
}.

Section Store.
Context `{Collaborators}.

Definition new (o : object) : M memory nat :=
  λ m, Returns (next m) {| cells := <[next m := o]> (cells m); next := S (next m) |}.

(** [*p = o], for a pointer to a live object *)
Definition assign (p : nat) (o : object) : M memory unit :=
  λ m, match cells m !! p with
       | Some _ => Returns tt {| cells := <[p := o]> (cells m); next := next m |}
       | None => Undefined
       end.

Definition load (p : nat) : M memory object :=
  λ m, match cells m !! p with
       | Some o => Returns o m
       | None => Undefined
       end.

(** [delete p], for a pointer to a live object *)
Definition delete_ (p : nat) : M memory unit :=
  λ m, match cells m !! p with
       | Some _ => Returns tt {| cells := delete p (cells m); next := next m |}
       | None => Undefined
       end.

(** [delete reinterpret_cast<graph_t<...>*>(p)]: defined when [p] points to
    a live graph of that very instantiation. *)
Definition delete_graph (ty : type_tuple) (p : nat) : M memory unit :=
  λ m, match cells m !! p with
       | Some (Graph ty' _) =>
           if decide (ty' = ty)
           then Returns tt {| cells := delete p (cells m); next := next m |}
           else Undefined
       | _ => Undefined
       end.

(** [delete reinterpret_cast<rmm::device_uvector<T>*>(p)]: defined when [p]
    points to a live vector of that element type. *)
Definition delete_uvector (T : data_type_id_t) (p : nat) : M memory unit :=
  λ m, match cells m !! p with
       | Some (DeviceUVector T' _) =>
           if decide (T' = T)
           then Returns tt {| cells := delete p (cells m); next := next m |}
           else Undefined
       | _ => Undefined
       end.

Definition live (m : memory) (p : nat) : Prop := is_Some (cells m !! p).

(** No live cell at or above the next address to hand out. *)
Definition well_formed (m : memory) : Prop :=
  ∀ p, live m p → p < next m.

Definition empty_memory : memory := {| cells := ∅; next := 0 |}.

End Store.

(** ** The functors *)

(** Modelled from the spec: [c_api/abstract_functor.hpp] is not among the
    sources.  The base class holds the error object (initially with an empty
    message) and the status (initially success); [unsupported] is the one
    place that produces the fixed code for a type combination without an
    implementation, with its message. *)
Module abstract_functor.

Record t := {
  error_ : cugraph_error_t;
  error_code_ : cugraph_error_code_t
}.

Definition init : t :=
  {| error_ := {| error_message_ := EmptyString |}; error_code_ := CUGRAPH_SUCCESS |}.

Definition unsupported `{Collaborators} (_ : t) : t :=
  {| error_ := {| error_message_ := unsupported_message |};
     error_code_ := CUGRAPH_UNSUPPORTED_TYPE_COMBINATION |}.

End abstract_functor.

(** Modelled from the spec: [cugraph::detail::sequence_fill] is not among the
    sources.  It writes [start], [start + 1], ... into a buffer of [size]
    elements, the identity numbering of the input's own id space. *)
Definition sequence_fill (size : nat) (start : Z) : list Z :=
  (λ i, (start + Z.of_nat i)%Z) <$> seq 0 size.

Module create_graph_functor.
Section Functor.
Context `{Collaborators}.

Record t := {
  base : abstract_functor.t;
  properties_ : cugraph_graph_properties_t;
  src_ : cugraph_type_erased_device_array_t;
  dst_ : cugraph_type_erased_device_array_t;
  weights_ : option cugraph_type_erased_device_array_t;
  renumber_ : bool;
  check_ : bool;
  edge_type_ : data_type_id_t;
  result_ : option nat
}.

(** The constructor; [result_] starts null. *)
Definition make properties src dst weights renumber check edge_type : t :=
  {| base := abstract_functor.init;
     properties_ := properties; src_ := src; dst_ := dst; weights_ := weights;
     renumber_ := renumber; check_ := check; edge_type_ := edge_type;
     result_ := None |}.

Definition with_base (f : t) (b : abstract_functor.t) : t :=
  {| base := b;
     properties_ := properties_ f; src_ := src_ f; dst_ := dst_ f;
     weights_ := weights_ f; renumber_ := renumber_ f; check_ := check_ f;
     edge_type_ := edge_type_ f; result_ := result_ f |}.

Definition with_result (f : t) (r : nat) : t :=
  {| base := base f;
     properties_ := properties_ f; src_ := src_ f; dst_ := dst_ f;
     weights_ := weights_ f; renumber_ := renumber_ f; check_ := check_ f;
     edge_type_ := edge_type_ f; result_ := Some r |}.

(** What [create_graph_from_edgelist] gives on the three buffers, each copied
    at the instantiation's type: the edge list as [vertex_t], the weights as
    [weight_t]. *)
Definition builder_result (ty : type_tuple) (f : t) : string + (graph_t * option (list Z)) :=
  let '(vertex_t, _, weight_t, _, _) := ty in
  create_graph_from_edgelist ty (copy_as vertex_t (src_ f)) (copy_as vertex_t (dst_ f))
    (copy_as weight_t <$> weights_ f) (properties_ f) (renumber_ f) (check_ f).

(** Whether the three copies stay inside their buffers. *)
Definition copies_in_bounds (ty : type_tuple) (f : t) : bool :=
  let '(vertex_t, _, weight_t, _, _) := ty in
  copy_in_bounds vertex_t (src_ f) && copy_in_bounds vertex_t (dst_ f) &&
  from_option (copy_in_bounds weight_t) true (weights_ f).

(** The copies and the call of the builder: no defined result when a copy
    reads past the end of its buffer, otherwise the builder's result or its
    exception. *)
Definition build (ty : type_tuple) (f : t) : M memory (graph_t * option (list Z)) :=
  if copies_in_bounds ty f then
    match builder_result ty f with
    | inl what => throw what
    | inr r => ret r
    end
  else undefined.

(** [std::optional::value()] *)
Definition value {A} (o : option A) : M memory A :=
  match o with
  | Some a => ret a
  | None => throw "bad optional access"
  end.

(** [operator()<vertex_t, edge_t, weight_t, store_transposed, multi_gpu>()].
    The body of [if (check_)] is empty.  The three edge list buffers are
    locals handed to the builder by move; the graph and the number map are
    made with [new] before the builder runs and assigned afterwards. *)
Definition call (ty : type_tuple) (f : t) : M memory t :=
  let '(vertex_t, edge_t, weight_t, store_transposed, multi_gpu) := ty in
  if multi_gpu || negb (is_candidate vertex_t edge_t weight_t) then
    ret (with_base f (abstract_functor.unsupported (base f)))
  else
    graph <- new (Graph ty empty_graph) ;;
    number_map <- new (DeviceUVector vertex_t []) ;;
    r <- build ty f ;;
    assign graph (Graph ty r.1) ;;
    (if renumber_ f then
       m <- value r.2 ;;
       assign number_map (DeviceUVector vertex_t m)
     else
       assign number_map
         (DeviceUVector vertex_t
            (sequence_fill (get_number_of_vertices r.1) (get_local_vertex_first r.1)))) ;;
    result <- new (GraphHandle
                     (Build_cugraph_graph_t
                        (type_ (src_ f))
                        (edge_type_ f)
                        (match weights_ f with
                         | Some w => type_ w
                         | None => FLOAT32
                         end)
                        store_transposed
                        multi_gpu
                        graph
                        number_map)) ;;
    ret (with_result f result).

End Functor.
End create_graph_functor.

Module destroy_graph_functor.
Section Functor.
Context `{Collaborators}.

Record t := {
  graph_ : nat;
  number_map_ : nat
}.

(** [operator()<...>()]: both pointers are cast to the instantiation's
    types, [graph_t<...>] and [device_uvector<vertex_t>], and deleted. *)
Definition call (ty : type_tuple) (f : t) : M memory t :=
  let '(vertex_t, _, _, _, _) := ty in
  delete_graph ty (graph_ f) ;;
  delete_uvector vertex_t (number_map_ f) ;;
  ret f.

End Functor.
End destroy_graph_functor.

(** Modelled from the spec: [cugraph/visitors/generic_cascaded_dispatch.hpp]
    and the table [dtypes_mapping] are not among the sources.  The dispatcher
    selects the one instantiation of the functor's call operator for the
    tuple it is given and invokes it exactly once; [dtypes_mapping] renames a
    tag of the C interface to the dispatcher's own enumeration. *)
Definition dtypes_mapping (t : data_type_id_t) : data_type_id_t := t.

Definition vertex_dispatcher {S F} (vertex_dtype edge_dtype weight_dtype : data_type_id_t)
    (store_transposed multi_gpu : bool) (call : type_tuple → F → M S F) (functor : F) : M S F :=
  call (vertex_dtype, edge_dtype, weight_dtype, store_transposed, multi_gpu) functor.

(** ** The entry points *)

(** What a call leaves behind: the returned status and the two output
    parameters [*graph] and [*error]. *)
Record call_result := {
  ret_code : cugraph_error_code_t;
  graph_out : option nat;
  error_out : option cugraph_error_t
}.

(** Modelled from the spec: the macro [CAPI_EXPECTS] of [c_api/error.hpp] is
    not among the sources.  It evaluates a condition and on failure makes an
    error object with the given message, stores it in the error output and
    returns the given code at once; the other output keeps the value it has
    at that point. *)
Definition CAPI_EXPECTS {S} (statement : bool) (error_code : cugraph_error_code_t)
    (error_message : string) (graph : option nat) (rest : M S call_result) : M S call_result :=
  if statement then rest
  else ret {| ret_code := error_code;
              graph_out := graph;
              error_out := Some {| error_message_ := error_message |} |}.

(** [constexpr size_t int32_threshold{2 ^ 31 - 1}]: in C++ [^] is exclusive
    or and binds less tightly than [-]. *)
Definition int32_threshold : N := Z.to_N (Z.lxor 2 (31 - 1)).

(** Lines 213 to 217. *)
Definition select_edge_type (src : cugraph_type_erased_device_array_t) : data_type_id_t :=
  if (size_ src <? int32_threshold)%N then INT32 else INT64.

(** Lines 219 to 223. *)
Definition select_weight_type {S} (weights : option cugraph_type_erased_device_array_t) :
    M S data_type_id_t :=
  if is_null weights then arrow weights type_ else ret FLOAT32.

Section EntryPoints.
Context `{Collaborators}.

(** [src] and [dst] are dereferenced unconditionally: they are arrays, while
    [weights] may be null. *)
Definition cugraph_sg_graph_create
    (properties : cugraph_graph_properties_t)
    (src dst : cugraph_type_erased_device_array_t)
    (weights : option cugraph_type_erased_device_array_t)
    (store_transposed renumber check : bool) : M memory call_result :=
  let multi_gpu := false in
  let graph : option nat := None in
  CAPI_EXPECTS (size_ src =? size_ dst)%N CUGRAPH_INVALID_INPUT
    "Invalid input arguments: src size != dst size." graph (
  CAPI_EXPECTS (bool_decide (type_ src = type_ dst)) CUGRAPH_INVALID_INPUT
    "Invalid input arguments: src type != dst type." graph (
  sizes_agree <- (if is_null weights then ret true
                  else arrow weights (λ w, (size_ w =? size_ src)%N)) ;;
  CAPI_EXPECTS sizes_agree CUGRAPH_INVALID_INPUT
    "Invalid input arguments: src size != weights size." graph (
  let edge_type := select_edge_type src in
  weight_type <- select_weight_type weights ;;
  let functor :=
    create_graph_functor.make properties src dst weights renumber check edge_type in
  try_catch
    (functor <- vertex_dispatcher (dtypes_mapping (type_ src))
                                  (dtypes_mapping edge_type)
                                  (dtypes_mapping weight_type)
                                  store_transposed
                                  multi_gpu
                                  create_graph_functor.call functor ;;
     let base := create_graph_functor.base functor in
     if negb (bool_decide (abstract_functor.error_code_ base = CUGRAPH_SUCCESS)) then
       ret {| ret_code := abstract_functor.error_code_ base;
              graph_out := graph;
              error_out := Some (abstract_functor.error_ base) |}
     else
       ret {| ret_code := CUGRAPH_SUCCESS;
              graph_out := create_graph_functor.result_ functor;
              error_out := None |})
    (λ what,
       ret {| ret_code := CUGRAPH_UNKNOWN_ERROR;
              graph_out := graph;
              error_out := Some {| error_message_ := what |} |})))).

Definition cugraph_sg_graph_free (ptr_graph : nat) : M memory unit :=
  o <- load ptr_graph ;;
  match o with
  | GraphHandle internal_pointer =>
      let functor :=
        {| destroy_graph_functor.graph_ := graph_ internal_pointer;
           destroy_graph_functor.number_map_ := number_map_ internal_pointer |} in
      vertex_dispatcher (dtypes_mapping (vertex_type_ internal_pointer))
                        (dtypes_mapping (edge_type_ internal_pointer))
                        (dtypes_mapping (weight_type_ internal_pointer))
                        (store_transposed_ internal_pointer)
                        (multi_gpu_ internal_pointer)
                        destroy_graph_functor.call functor ;;
      delete_ ptr_graph
  | _ => undefined
  end.

End EntryPoints.

(** ** The process grid and the edge comparison of the symmetrize test

    Two pieces of [run_current_test] in
    [tests/structure/mg_symmetrize_test.cpp] that compute on integers only. *)

(** Lines 69 to 71: [while (comm_size % row_comm_size != 0) { --row_comm_size; }].
    The counter only decreases from a start that is not negative, so it is a
    [nat]; at zero the remainder is a division by zero and there is no
    result.  [%] on [int] is [Z.rem]. *)
Fixpoint while_not_divisor (comm_size : Z) (row_comm_size : nat) : option nat :=
  match row_comm_size with
  | O => None
  | S r =>
      if negb (Z.rem comm_size (Z.of_nat row_comm_size) =? 0)%Z
      then while_not_divisor comm_size r
      else Some row_comm_size
  end.

(** Lines 68 to 71.  The start is
    [static_cast<int>(sqrt(static_cast<double>(comm_size)))]: for the values of
    an [int] the double square root is exact enough that its truncation is
    the integer square root. *)
Definition row_comm_size (comm_size : Z) : option nat :=
  while_not_divisor comm_size (Z.to_nat (Z.sqrt comm_size)).

(** [std::vector<T> h(n)] followed by
    [raft::update_host(h.data(), d.data(), count, stream)]: the vector starts
    zeroed; the copy takes [count] elements, which the source must have and
    the vector must hold. *)
Definition update_host (n : nat) (d : list Z) (count : nat) : option (list Z) :=
  if decide (count ≤ n ∧ count ≤ length d)%nat
  then Some (take count d ++ replicate (n - count) 0%Z)%list
  else None.

(** The order [std::sort] uses on [std::tuple<vertex_t, vertex_t>]:
    lexicographic. *)
Definition tuple_le (a b : Z * Z) : Prop :=
  (a.1 < b.1)%Z ∨ (a.1 = b.1 ∧ (a.2 ≤ b.2)%Z).

#[global] Instance tuple_le_dec a b : Decision (tuple_le a b).
Proof. unfold tuple_le. apply _. Defined.

(** [std::sort(v.begin(), v.end())]: the arrangement of [v] in that order. *)
Definition std_sort (l : list (Z * Z)) : list (Z * Z) := merge_sort tuple_le l.

(** [std::equal(first1, last1, first2)]: compares as many elements as the
    first range has, stops at the first difference, and reads past the end
    of the second range when that one is shorter and nothing differed. *)
Fixpoint std_equal (l1 l2 : list (Z * Z)) : option bool :=
  match l1, l2 with
  | [], _ => Some true
  | _ :: _, [] => None
  | x :: l1', y :: l2' => if decide (x = y) then std_equal l1' l2' else Some false
  end.

(** Lines 158 to 186 and 210 to 222, the unweighted comparison.  The host
    vectors of one side all have the size of its row array; every array is
    copied with its own size.  The edges are the pairs of rows and columns;
    both lists are sorted and compared. *)
Definition compare_edges (d_mg_rows d_mg_cols d_sg_rows d_sg_cols : list Z) : option bool :=
  h_mg_rows ← update_host (length d_mg_rows) d_mg_rows (length d_mg_rows);
  h_mg_cols ← update_host (length d_mg_rows) d_mg_cols (length d_mg_cols);
  h_sg_rows ← update_host (length d_sg_rows) d_sg_rows (length d_sg_rows);
  h_sg_cols ← update_host (length d_sg_rows) d_sg_cols (length d_sg_cols);
  std_equal (std_sort (zip h_mg_rows h_mg_cols)) (std_sort (zip h_sg_rows h_sg_cols)).

(** * Part II: the vocabulary of the statements *)

(** The three conditions checked on entry. *)
Definition valid_input (src dst : cugraph_type_erased_device_array_t)
    (weights : option cugraph_type_erased_device_array_t) : Prop :=
  size_ src = size_ dst ∧
  type_ src = type_ dst ∧
  ∀ w, weights = Some w → size_ w = size_ src.

(** The message of the first check that fails, in the order the checks are
    listed: sizes of [src] and [dst], their tags, the size of the weights. *)
Definition violation_message (src dst : cugraph_type_erased_device_array_t) : string :=
  if decide (size_ src ≠ size_ dst) then "Invalid input arguments: src size != dst size."
  else if decide (type_ src ≠ type_ dst) then "Invalid input arguments: src type != dst type."
  else "Invalid input arguments: src size != weights size.".

Definition invalid_input_result (message : string) : call_result :=
  {| ret_code := CUGRAPH_INVALID_INPUT;
     graph_out := None;
     error_out := Some {| error_message_ := message |} |}.

(** A tuple for which the functor has nothing to run. *)
Definition no_registered_specialization `{Collaborators} (ty : type_tuple) : bool :=
  let '(vertex_t, edge_t, weight_t, _, multi_gpu) := ty in
  multi_gpu || negb (is_candidate vertex_t edge_t weight_t).

(** The tuple the single-GPU entry point dispatches construction on, given
    the weight type it selected. *)
Definition dispatched_tuple (src : cugraph_type_erased_device_array_t)
    (weight_type : data_type_id_t) (store_transposed : bool) : type_tuple :=
  (type_ src, select_edge_type src, weight_type, store_transposed, false).

(** The tuple [cugraph_sg_graph_free] hands to the dispatcher. *)
Definition stored_tuple (h : cugraph_graph_t) : type_tuple :=
  (vertex_type_ h, edge_type_ h, weight_type_ h, store_transposed_ h, multi_gpu_ h).

(** The weight type the graph declares: the tag of the weight array, single
    precision when there is none (what the handle records). *)
Definition declared_weight_type (weights : option cugraph_type_erased_device_array_t) :
    data_type_id_t :=
  match weights with
  | Some w => type_ w
  | None => FLOAT32
  end.

(** The type-tag tuple of a call: the source tag, the selected edge tag, the
    declared weight type, [store_transposed], and [multi_gpu] off. *)
Definition declared_tuple (src : cugraph_type_erased_device_array_t)
    (weights : option cugraph_type_erased_device_array_t) (store_transposed : bool) :
    type_tuple :=
  (type_ src, select_edge_type src, declared_weight_type weights, store_transposed, false).

(** Modelled from the spec: the renumbering inside
    [create_graph_from_edgelist] is not among the sources.  The map it
    returns lists the distinct vertex labels of the edge list, each once: a
    bijection between the dense internal indices and the labels. *)
Definition labelling (elems rows cols : list Z) : Prop :=
  NoDup elems ∧ ∀ v, v ∈ elems ↔ v ∈ (rows ++ cols)%list.

Definition renumbers_bijectively `{Collaborators} : Prop :=
  ∀ ty rows cols w p check g nm,
    create_graph_from_edgelist ty rows cols w p true check = inr (g, Some nm) →
    labelling nm rows cols.

Section Vocabulary.
Context `{Collaborators}.

(** The store after the functor has made the graph and the empty number map
    and the builder has thrown. *)
Definition abandoned (m : memory) (ty : type_tuple) : memory :=
  {| cells := <[S (next m) := DeviceUVector ty.1.1.1.1 []]>
                (<[next m := Graph ty empty_graph]> (cells m));
     next := S (S (next m)) |}.

(** The store after a construction that went through: graph at [next m],
    number map after it, handle last. *)
Definition constructed (m : memory) (ty : type_tuple) (g : graph_t) (elems : list Z)
    (h : cugraph_graph_t) : memory :=
  {| cells := <[S (S (next m)) := GraphHandle h]>
                (<[S (next m) := DeviceUVector ty.1.1.1.1 elems]>
                   (<[next m := Graph ty g]> (cells (abandoned m ty))));
     next := S (S (S (next m))) |}.

(** The label map the functor keeps, from what the builder gave. *)
Definition kept_number_map (renumber : bool) (g : graph_t) (new_number_map : option (list Z)) :
    option (list Z) :=
  if renumber then new_number_map
  else Some (sequence_fill (get_number_of_vertices g) (get_local_vertex_first g)).

(** The handle the functor makes for a graph placed at address [n]. *)
Definition handle_of (ty : type_tuple) (f : create_graph_functor.t) (n : nat) :
    cugraph_graph_t :=
  {| vertex_type_ := type_ (create_graph_functor.src_ f);
     edge_type_ := create_graph_functor.edge_type_ f;
     weight_type_ := declared_weight_type (create_graph_functor.weights_ f);
     store_transposed_ := ty.1.2;
     multi_gpu_ := ty.2;
     graph_ := n;
     number_map_ := S n |}.

(** What the entry point returns for each way the functor's call can end. *)
Definition report (o : outcome memory create_graph_functor.t) : outcome memory call_result :=
  match o with
  | Returns f m' =>
      let base := create_graph_functor.base f in
      if negb (bool_decide (abstract_functor.error_code_ base = CUGRAPH_SUCCESS)) then
        Returns {| ret_code := abstract_functor.error_code_ base;
                   graph_out := None;
                   error_out := Some (abstract_functor.error_ base) |} m'
      else
        Returns {| ret_code := CUGRAPH_SUCCESS;
                   graph_out := create_graph_functor.result_ f;
                   error_out := None |} m'
  | Throws what m' =>
      Returns {| ret_code := CUGRAPH_UNKNOWN_ERROR;
                 graph_out := None;
                 error_out := Some {| error_message_ := what |} |} m'
  | Undefined => Undefined
  end.

(** Every way the call can end, by the first thing that goes wrong. *)
Inductive create_spec properties src dst weights (store_transposed renumber check : bool)
    (m : memory) : outcome memory call_result → Prop :=
| create_invalid message :
    ¬ valid_input src dst weights →
    create_spec properties src dst weights store_transposed renumber check m
      (Returns (invalid_input_result message) m)
| create_null_weights :
    valid_input src dst weights →
    weights = None →
    create_spec properties src dst weights store_transposed renumber check m Undefined
| create_unsupported w :
    valid_input src dst weights →
    weights = Some w →
    no_registered_specialization (dispatched_tuple src FLOAT32 store_transposed) = true →
    create_spec properties src dst weights store_transposed renumber check m
      (Returns {| ret_code := CUGRAPH_UNSUPPORTED_TYPE_COMBINATION;
                  graph_out := None;
                  error_out := Some {| error_message_ := unsupported_message |} |} m)
| create_caught w what m' :
    valid_input src dst weights →
    weights = Some w →
    no_registered_specialization (dispatched_tuple src FLOAT32 store_transposed) = false →
    create_spec properties src dst weights store_transposed renumber check m
      (Returns {| ret_code := CUGRAPH_UNKNOWN_ERROR;
                  graph_out := None;
                  error_out := Some {| error_message_ := what |} |} m')
| create_built w g nm elems :
    valid_input src dst weights →
    weights = Some w →
    no_registered_specialization (dispatched_tuple src FLOAT32 store_transposed) = false →
    create_graph_from_edgelist (dispatched_tuple src FLOAT32 store_transposed)
      (copy src) (copy dst) (Some (copy_as FLOAT32 w)) properties renumber check = inr (g, nm) →
    kept_number_map renumber g nm = Some elems →
    create_spec properties src dst weights store_transposed renumber check m
      (Returns {| ret_code := CUGRAPH_SUCCESS;
                  graph_out := Some (S (S (next m)));
                  error_out := None |}
         (constructed m (dispatched_tuple src FLOAT32 store_transposed) g elems
            (handle_of (dispatched_tuple src FLOAT32 store_transposed)
               (create_graph_functor.make properties src dst weights renumber check
                  (select_edge_type src))
               (next m)))).

End Vocabulary.

Section StoreVocabulary.
Context `{Collaborators}.

(** [m'] has every cell of [m] below [next m] as it was. *)
Definition extends (m m' : memory) : Prop :=
  (next m ≤ next m')%nat ∧ ∀ p : nat, p < next m → cells m' !! p = cells m !! p.

(** The store after the builder returned without a map although [renumber]
    was set: the graph is assigned, the number map is still empty. *)
Definition built_without_map (m : memory) (ty : type_tuple) (g : graph_t) : memory :=
  {| cells := <[next m := Graph ty g]> (cells (abandoned m ty));
     next := S (S (next m)) |}.

(** The store after the three deletes of [cugraph_sg_graph_free]. *)
Definition released (m : memory) (p : nat) (h : cugraph_graph_t) : memory :=
  {| cells := delete p (delete (number_map_ h) (delete (graph_ h) (cells m)));
     next := next m |}.

(** [p] holds a handle, its [graph_] points to a live graph of the
    instantiation the handle records, and its [number_map_] to a live vector
    of the vertex type the handle records. *)
Definition releasable (m : memory) (p : nat) (h : cugraph_graph_t) : Prop :=
  cells m !! p = Some (GraphHandle h) ∧
  (∃ g, cells m !! graph_ h = Some (Graph (stored_tuple h) g)) ∧
  (∃ elems, cells m !! number_map_ h = Some (DeviceUVector (vertex_type_ h) elems)).

Definition unknown_error_result (what : string) : call_result :=
  {| ret_code := CUGRAPH_UNKNOWN_ERROR;
     graph_out := None;
     error_out := Some {| error_message_ := what |} |}.

(** Every way the call can end, with the store it leaves. *)
Inductive create_outcome properties src dst weights (store_transposed renumber check : bool)
    (m : memory) : outcome memory call_result → Prop :=
| outcome_invalid :
    ¬ valid_input src dst weights →
    create_outcome properties src dst weights store_transposed renumber check m
      (Returns (invalid_input_result (violation_message src dst)) m)
| outcome_null_weights :
    valid_input src dst weights →
    weights = None →
    create_outcome properties src dst weights store_transposed renumber check m Undefined
| outcome_unsupported w :
    valid_input src dst weights →
    weights = Some w →
    no_registered_specialization (dispatched_tuple src FLOAT32 store_transposed) = true →
    create_outcome properties src dst weights store_transposed renumber check m
      (Returns {| ret_code := CUGRAPH_UNSUPPORTED_TYPE_COMBINATION;
                  graph_out := None;
                  error_out := Some {| error_message_ := unsupported_message |} |} m)
| outcome_builder_threw w what :
    valid_input src dst weights →
    weights = Some w →
    no_registered_specialization (dispatched_tuple src FLOAT32 store_transposed) = false →
    create_graph_from_edgelist (dispatched_tuple src FLOAT32 store_transposed)
      (copy src) (copy dst) (Some (copy_as FLOAT32 w)) properties renumber check = inl what →
    create_outcome properties src dst weights store_transposed renumber check m
      (Returns (unknown_error_result what)
         (abandoned m (dispatched_tuple src FLOAT32 store_transposed)))
| outcome_no_map w g :
    valid_input src dst weights →
    weights = Some w →
    no_registered_specialization (dispatched_tuple src FLOAT32 store_transposed) = false →
    create_graph_from_edgelist (dispatched_tuple src FLOAT32 store_transposed)
      (copy src) (copy dst) (Some (copy_as FLOAT32 w)) properties renumber check = inr (g, None) →
    renumber = true →
    create_outcome properties src dst weights store_transposed renumber check m
      (Returns (unknown_error_result "bad optional access")
         (built_without_map m (dispatched_tuple src FLOAT32 store_transposed) g))
| outcome_built w g nm elems :
    valid_input src dst weights →
    weights = Some w →
    no_registered_specialization (dispatched_tuple src FLOAT32 store_transposed) = false →
    create_graph_from_edgelist (dispatched_tuple src FLOAT32 store_transposed)
      (copy src) (copy dst) (Some (copy_as FLOAT32 w)) properties renumber check = inr (g, nm) →
    kept_number_map renumber g nm = Some elems →
    create_outcome properties src dst weights store_transposed renumber check m
      (Returns {| ret_code := CUGRAPH_SUCCESS;
                  graph_out := Some (S (S (next m)));
                  error_out := None |}
         (constructed m (dispatched_tuple src FLOAT32 store_transposed) g elems
            (handle_of (dispatched_tuple src FLOAT32 store_transposed)
               (create_graph_functor.make properties src dst weights renumber check
                  (select_edge_type src))
               (next m)))).

End StoreVocabulary.

(** * Part III: collaborators to run the program with, and inputs *)

Module reference.

Record graph := {
  number_of_vertices : nat;
  rows : list Z;
  cols : list Z;
  weights : option (list Z)
}.

Definition is_integer (t : data_type_id_t) : bool :=
  match t with
  | INT32 | INT64 => true
  | FLOAT32 | FLOAT64 => false
  end.

Definition width (t : data_type_id_t) : nat :=
  match t with
  | INT32 | FLOAT32 => 4
  | INT64 | FLOAT64 => 8
  end.

(** Integer vertex and edge types, edges at least as wide as vertices, and a
    floating point weight type. *)
Definition candidate (v e w : data_type_id_t) : bool :=
  is_integer v && is_integer e && (width v <=? width e)%nat && negb (is_integer w).

Definition labels (r c : list Z) : list Z := remove_dups (r ++ c).

(** A builder that keeps the edge list.  With [check] it throws on a negative
    vertex id; with [renumber] the new map lists the distinct labels in the
    order they occur; without, the vertices are [0 .. max]. *)
Definition builder (ty : type_tuple) (r c : list Z) (w : option (list Z))
    (p : cugraph_graph_properties_t) (renumber check : bool) :
    string + (graph * option (list Z)) :=
  if check && existsb (λ v, (v <? 0)%Z) (r ++ c) then
    inl "Invalid input argument: vertex id out of range."
  else if renumber then
    inr ({| number_of_vertices := length (labels r c);
            rows := r; cols := c; weights := w |}, Some (labels r c))
  else
    inr ({| number_of_vertices := Z.to_nat (1 + foldr Z.max (-1)%Z (r ++ c));
            rows := r; cols := c; weights := w |}, None).

#[global] Instance collaborators : Collaborators := {|
  graph_t := graph;
  empty_graph := {| number_of_vertices := 0; rows := []; cols := []; weights := None |};
  get_number_of_vertices := number_of_vertices;
  get_local_vertex_first := λ _, 0%Z;
  is_candidate := candidate;
  create_graph_from_edgelist := builder;
  unsupported_message := "Type Dispatcher executing unsupported combination of types"
|}.

End reference.

(** An array holding the given elements. *)
Definition array_of (t : data_type_id_t) (l : list Z) : cugraph_type_erased_device_array_t :=
  {| type_ := t; size_ := N.of_nat (length l); data_ := l |}.

(** The graph of [tests/c_api/pagerank_test.c]: 6 vertices, 8 edges; the
    weights are the bit patterns of 0.1f, 2.1f, 1.1f, 5.1f, 3.1f, 4.1f, 7.2f
    and 3.2f. *)
Definition h_src : list Z := [0; 1; 1; 2; 2; 2; 3; 4]%Z.
Definition h_dst : list Z := [1; 3; 4; 0; 1; 3; 5; 5]%Z.
Definition h_wgt : list Z :=
  [1036831949; 1074161254; 1066192077; 1084437299;
   1078355558; 1082340147; 1088841318; 1078774989]%Z.

Definition no_properties : cugraph_graph_properties_t :=
  {| is_symmetric := false; is_multigraph := false |}.

(** A second set of collaborators: the same graphs and candidates, with a
    builder that never renumbers and so never returns a map. *)
Module mapless.

Definition builder (ty : type_tuple) (r c : list Z) (w : option (list Z))
    (p : cugraph_graph_properties_t) (renumber check : bool) :
    string + (reference.graph * option (list Z)) :=
  inr ({| reference.number_of_vertices := Z.to_nat (1 + foldr Z.max (-1)%Z (r ++ c));
          reference.rows := r; reference.cols := c; reference.weights := w |}, None).

Definition collaborators : Collaborators := {|
  graph_t := reference.graph;
  empty_graph := {| reference.number_of_vertices := 0; reference.rows := [];
                    reference.cols := []; reference.weights := None |};
  get_number_of_vertices := reference.number_of_vertices;
  get_local_vertex_first := λ _, 0%Z;
  is_candidate := reference.candidate;
  create_graph_from_edgelist := builder;
  unsupported_message := "Type Dispatcher executing unsupported combination of types"
|}.

End mapless.

(** The call that builds the graph of the pagerank test, transposed. *)
Definition test_graph_call (renumber check : bool) : M memory call_result :=
  cugraph_sg_graph_create no_properties
    (array_of INT32 h_src) (array_of INT32 h_dst) (Some (array_of FLOAT32 h_wgt))
    true renumber check.

Definition store_after {A} (o : outcome memory A) : memory :=
  match o with
  | Returns _ m | Throws _ m => m
  | Undefined => empty_memory
  end.

(** The store that holds the graph of the pagerank test and nothing else. *)
Definition test_graph_store : memory :=
  store_after (test_graph_call false false empty_memory).


(** * Part IV: properties *)

(** ** The two selections *)

Lemma int32_threshold_value : int32_threshold = 28%N.
Proof. reflexivity. Qed.

Lemma select_edge_type_narrow src :
  select_edge_type src = INT32 ↔ (size_ src < 28)%N.
Proof.
  unfold select_edge_type. rewrite int32_threshold_value.
  destruct (N.ltb_spec (size_ src) 28); split; intros; try done; lia.
Qed.

Lemma select_weight_type_returns {S} weights wt (s s' : S) :
  select_weight_type weights s = Returns wt s' →
  is_Some weights ∧ wt = FLOAT32 ∧ s' = s.
Proof.
  destruct weights as [w|]; cbn; [|done].
  intros [= <- <-]. eauto.
Qed.



Lemma copy_as_own_tag a : copy_as (type_ a) a = copy a.
Proof. unfold copy_as, as_type, copy. by rewrite decide_True. Qed.

(** ** The call operator of the construction functor, case by case *)

Section Call.
Context `{Collaborators}.
Implicit Types (f : create_graph_functor.t) (m : memory) (ty : type_tuple).

Lemma call_unsupported ty f m :
  no_registered_specialization ty = true →
  create_graph_functor.call ty f m =
    Returns (create_graph_functor.with_base f
               (abstract_functor.unsupported (create_graph_functor.base f))) m.
Proof.
  destruct ty as [[[[v e] w] st] mg]. cbn. intros ->. reflexivity.
Qed.

Lemma call_throws ty f m what :
  no_registered_specialization ty = false →
  create_graph_functor.copies_in_bounds ty f = true →
  create_graph_functor.builder_result ty f = inl what →
  create_graph_functor.call ty f m = Throws what (abandoned m ty).
Proof.
  destruct ty as [[[[v e] w] st] mg]. cbn [no_registered_specialization]. intros Hn Hin Hb.
  unfold create_graph_functor.call. rewrite Hn.
  unfold bind, new, create_graph_functor.build. rewrite Hin, Hb. reflexivity.
Qed.

Lemma call_builds ty f m g nm elems :
  no_registered_specialization ty = false →
  create_graph_functor.copies_in_bounds ty f = true →
  create_graph_functor.builder_result ty f = inr (g, nm) →
  kept_number_map (create_graph_functor.renumber_ f) g nm = Some elems →
  create_graph_functor.call ty f m =
    Returns (create_graph_functor.with_result f (S (S (next m))))
            (constructed m ty g elems (handle_of ty f (next m))).
Proof.
  destruct ty as [[[[v e] w] st] mg]. cbn [no_registered_specialization]. intros Hn Hin Hb Hk.
  unfold create_graph_functor.call. rewrite Hn.
  unfold bind, new, create_graph_functor.build. rewrite Hin, Hb. cbn.
  unfold assign at 1. cbn.
  rewrite lookup_insert_ne by lia. rewrite lookup_insert_eq.
  unfold kept_number_map in Hk.
  destruct (create_graph_functor.renumber_ f); cbn.
  - subst nm. cbn. unfold assign. cbn. rewrite lookup_insert_ne by lia.
    rewrite lookup_insert_eq. reflexivity.
  - injection Hk as <-. unfold assign. cbn. rewrite lookup_insert_ne by lia.
    rewrite lookup_insert_eq. reflexivity.
Qed.

(** The builder gave no map although [renumber] was set. *)
Lemma call_without_map ty f m g :
  no_registered_specialization ty = false →
  create_graph_functor.copies_in_bounds ty f = true →
  create_graph_functor.builder_result ty f = inr (g, None) →
  create_graph_functor.renumber_ f = true →
  ∃ m', create_graph_functor.call ty f m = Throws "bad optional access" m'.
Proof.
  destruct ty as [[[[v e] w] st] mg]. cbn [no_registered_specialization]. intros Hn Hin Hb Hr.
  unfold create_graph_functor.call. rewrite Hn.
  unfold bind, new, create_graph_functor.build. rewrite Hin, Hb. cbn.
  unfold assign at 1. cbn.
  rewrite lookup_insert_ne by lia. rewrite lookup_insert_eq.
  rewrite Hr. cbn. eauto.
Qed.

End Call.

#[local] Arguments create_graph_functor.call : simpl never.

(** ** The entry point, case by case *)

Section Create.
Context `{Collaborators}.
Implicit Types (src dst : cugraph_type_erased_device_array_t).
Implicit Types (weights : option cugraph_type_erased_device_array_t).
Implicit Types (m : memory).

(** What the builder is given by the entry point: the two vertex arrays
    copied at their common tag, the weights copied at the dispatched weight
    type. *)
Lemma builder_result_at_entry properties src dst weights store_transposed renumber check
    weight_type edge_type :
  type_ src = type_ dst →
  create_graph_functor.builder_result (dispatched_tuple src weight_type store_transposed)
    (create_graph_functor.make properties src dst weights renumber check edge_type) =
  create_graph_from_edgelist (dispatched_tuple src weight_type store_transposed)
    (copy src) (copy dst) (copy_as weight_type <$> weights) properties renumber check.
Proof.
  intros Ht. unfold create_graph_functor.builder_result, dispatched_tuple. cbn.
  rewrite copy_as_own_tag. rewrite Ht at 2. by rewrite copy_as_own_tag.
Qed.

(** The copies of the entry point stay inside their buffers: the vertex
    arrays are read at their common tag, the weights at a type of four
    bytes. *)
Lemma copies_in_bounds_at_entry properties src dst weights store_transposed renumber check
    edge_type :
  type_ src = type_ dst →
  create_graph_functor.copies_in_bounds (dispatched_tuple src FLOAT32 store_transposed)
    (create_graph_functor.make properties src dst weights renumber check edge_type) = true.
Proof.
  intros Ht. unfold create_graph_functor.copies_in_bounds, dispatched_tuple, copy_in_bounds.
  cbn. rewrite <- Ht. rewrite bool_decide_eq_true_2 by done. cbn.
  destruct weights as [w|]; [|done]. cbn. by destruct (type_ w).
Qed.

(** Past the three checks, with a weight array, the call is the dispatch of
    the functor on the tuple with single precision weights. *)
Lemma create_dispatches properties src dst w store_transposed renumber check m :
  valid_input src dst (Some w) →
  cugraph_sg_graph_create properties src dst (Some w) store_transposed renumber check m =
    report (create_graph_functor.call (dispatched_tuple src FLOAT32 store_transposed)
              (create_graph_functor.make properties src dst (Some w) renumber check
                 (select_edge_type src)) m).
Proof.
  intros (Hs & Ht & Hw). specialize (Hw w eq_refl).
  unfold cugraph_sg_graph_create, CAPI_EXPECTS.
  rewrite Hs, N.eqb_refl. rewrite bool_decide_eq_true_2 by done.
  unfold bind at 1. cbn. rewrite Hw, Hs, N.eqb_refl.
  unfold bind at 1. cbn.
  unfold try_catch, bind, vertex_dispatcher, dtypes_mapping, dispatched_tuple, report.
  destruct (create_graph_functor.call _ _ m) as [f m'|what m'|]; try reflexivity.
  destruct (bool_decide _); reflexivity.
Qed.

(** Without a weight array the selection of the weight type is undefined. *)
Lemma create_without_weights properties src dst store_transposed renumber check m :
  valid_input src dst None →
  cugraph_sg_graph_create properties src dst None store_transposed renumber check m =
    Undefined.
Proof.
  intros (Hs & Ht & _).
  unfold cugraph_sg_graph_create, CAPI_EXPECTS.
  rewrite Hs, N.eqb_refl. rewrite bool_decide_eq_true_2 by done.
  reflexivity.
Qed.

Lemma create_size_mismatch properties src dst weights store_transposed renumber check m :
  size_ src ≠ size_ dst →
  cugraph_sg_graph_create properties src dst weights store_transposed renumber check m =
    Returns (invalid_input_result "Invalid input arguments: src size != dst size.") m.
Proof.
  intros Hs. unfold cugraph_sg_graph_create, CAPI_EXPECTS.
  destruct (N.eqb_spec (size_ src) (size_ dst)); [done|reflexivity].
Qed.

Lemma create_type_mismatch properties src dst weights store_transposed renumber check m :
  size_ src = size_ dst →
  type_ src ≠ type_ dst →
  cugraph_sg_graph_create properties src dst weights store_transposed renumber check m =
    Returns (invalid_input_result "Invalid input arguments: src type != dst type.") m.
Proof.
  intros Hs Ht. unfold cugraph_sg_graph_create, CAPI_EXPECTS.
  rewrite Hs, N.eqb_refl. rewrite bool_decide_eq_false_2 by done. reflexivity.
Qed.

Lemma create_weights_mismatch properties src dst w store_transposed renumber check m :
  size_ src = size_ dst →
  type_ src = type_ dst →
  size_ w ≠ size_ src →
  cugraph_sg_graph_create properties src dst (Some w) store_transposed renumber check m =
    Returns (invalid_input_result "Invalid input arguments: src size != weights size.") m.
Proof.
  intros Hs Ht Hw. unfold cugraph_sg_graph_create, CAPI_EXPECTS.
  rewrite Hs, N.eqb_refl. rewrite bool_decide_eq_true_2 by done.
  unfold bind at 1. cbn. rewrite <- Hs.
  destruct (N.eqb_spec (size_ w) (size_ src)); [done|reflexivity].
Qed.

(** The three conditions are decidable, in the order the code tests them. *)
Lemma valid_input_cases src dst weights :
  valid_input src dst weights ∨
  size_ src ≠ size_ dst ∨
  (size_ src = size_ dst ∧ type_ src ≠ type_ dst) ∨
  (size_ src = size_ dst ∧ type_ src = type_ dst ∧
   ∃ w, weights = Some w ∧ size_ w ≠ size_ src).
Proof.
  destruct (decide (size_ src = size_ dst)) as [Hs|Hs]; [|by auto].
  destruct (decide (type_ src = type_ dst)) as [Ht|Ht]; [|by auto].
  destruct weights as [w|].
  - destruct (decide (size_ w = size_ src)) as [Hw|Hw].
    + left. repeat split; try done. by intros ? [= <-].
    + right; right; right. eauto.
  - left. repeat split; done.
Qed.

Lemma create_cases properties src dst weights store_transposed renumber check m :
  create_spec properties src dst weights store_transposed renumber check m
    (cugraph_sg_graph_create properties src dst weights store_transposed renumber check m).
Proof.
  destruct (valid_input_cases src dst weights)
    as [Hv|[Hs|[[Hs Ht]|(Hs & Ht & w & -> & Hw)]]].
  - destruct weights as [w|].
    2:{ rewrite create_without_weights by done. by constructor. }
    rewrite create_dispatches by done.
    set (ty := dispatched_tuple src FLOAT32 store_transposed).
    set (f := create_graph_functor.make _ _ _ _ _ _ _).
    destruct (no_registered_specialization ty) eqn:Hn.
    { rewrite call_unsupported by done. cbn. by eapply create_unsupported. }
    pose proof (builder_result_at_entry properties src dst (Some w) store_transposed
                  renumber check FLOAT32 (select_edge_type src) (proj1 (proj2 Hv))) as Hbr.
    fold ty f in Hbr. cbn [fmap option_fmap option_map] in Hbr.
    pose proof (copies_in_bounds_at_entry properties src dst (Some w) store_transposed
                  renumber check (select_edge_type src) (proj1 (proj2 Hv))) as Hin.
    fold ty f in Hin.
    destruct (create_graph_from_edgelist ty (copy src) (copy dst) (Some (copy_as FLOAT32 w))
                properties renumber check) as [what|[g nm]] eqn:Hb.
    { rewrite (call_throws ty f m what) by done. cbn. by eapply create_caught. }
    destruct (kept_number_map renumber g nm) as [elems|] eqn:Hk.
    { rewrite (call_builds ty f m g nm elems) by done. cbn. by eapply create_built. }
    unfold kept_number_map in Hk. destruct renumber; [|done]. subst nm.
    destruct (call_without_map ty f m g) as [m' ->]; try done.
    cbn. by eapply create_caught.
  - rewrite create_size_mismatch by done. constructor. by intros [? _].
  - rewrite create_type_mismatch by done. constructor. by intros (_ & ? & _).
  - rewrite create_weights_mismatch by done. constructor.
    intros (_ & _ & Hw'). by specialize (Hw' w eq_refl).
Qed.

End Create.

(** ** The store after a construction *)

Section Constructed.
Context `{Collaborators}.

Lemma constructed_handle m ty g elems h :
  cells (constructed m ty g elems h) !! S (S (next m)) = Some (GraphHandle h).
Proof. cbn. by rewrite lookup_insert_eq. Qed.

Lemma constructed_number_map m ty g elems h :
  cells (constructed m ty g elems h) !! S (next m) =
    Some (DeviceUVector ty.1.1.1.1 elems).
Proof. cbn. rewrite lookup_insert_ne by lia. by rewrite lookup_insert_eq. Qed.

Lemma constructed_graph m ty g elems h :
  cells (constructed m ty g elems h) !! next m = Some (Graph ty g).
Proof. cbn. do 2 rewrite lookup_insert_ne by lia. by rewrite lookup_insert_eq. Qed.

Lemma fresh_above m (p : nat) :
  well_formed m → (next m ≤ p)%nat → cells m !! p = None.
Proof.
  intros Hwf Hp. destruct (cells m !! p) eqn:E; [|done].
  assert (p < next m) by (apply Hwf; by eexists). lia.
Qed.

(** A handle cannot be its own graph or number map, nor a graph a vector. *)
Lemma releasable_distinct m p h :
  releasable m p h →
  graph_ h ≠ number_map_ h ∧ graph_ h ≠ p ∧ number_map_ h ≠ p.
Proof.
  intros (Hp & [g Hg] & [elems Hn]).
  repeat split; intros E; [rewrite E in Hg|rewrite E in Hg|rewrite E in Hn]; congruence.
Qed.

Lemma free_releasable m p h :
  releasable m p h → cugraph_sg_graph_free p m = Returns tt (released m p h).
Proof.
  intros Hr. destruct (releasable_distinct m p h Hr) as (Hgn & Hgp & Hnp).
  destruct Hr as (Hp & [g Hg] & [elems Hn]).
  unfold cugraph_sg_graph_free, bind, load. rewrite Hp.
  unfold vertex_dispatcher, dtypes_mapping, destroy_graph_functor.call, bind.
  cbn [destroy_graph_functor.graph_ destroy_graph_functor.number_map_].
  unfold delete_graph at 1. rewrite Hg.
  rewrite decide_True by done.
  unfold delete_uvector at 1. cbn [cells next].
  rewrite lookup_delete_ne by done. rewrite Hn.
  rewrite decide_True by done.
  unfold ret, delete_. cbn [cells next].
  do 2 rewrite lookup_delete_ne by done. rewrite Hp. reflexivity.
Qed.

Lemma free_not_releasable m p :
  (¬ ∃ h, releasable m p h) → cugraph_sg_graph_free p m = Undefined.
Proof.
  intros Hno.
  unfold cugraph_sg_graph_free, bind, load.
  destruct (cells m !! p) as [[ty g|T elems|h]|] eqn:Hp; try reflexivity.
  unfold vertex_dispatcher, dtypes_mapping, destroy_graph_functor.call, bind.
  cbn [destroy_graph_functor.graph_ destroy_graph_functor.number_map_].
  unfold delete_graph at 1.
  destruct (cells m !! graph_ h) as [[ty g|T elems|h']|] eqn:Hg; try reflexivity.
  destruct (decide (ty = _)) as [->|Hty]; [|reflexivity].
  unfold delete_uvector at 1. cbn [cells next].
  destruct (decide (graph_ h = number_map_ h)) as [Hgn|Hgn].
  { rewrite <- Hgn, lookup_delete_eq. reflexivity. }
  rewrite lookup_delete_ne by done.
  destruct (cells m !! number_map_ h) as [[ty g'|T elems|h']|] eqn:Hn; try reflexivity.
  destruct (decide (T = _)) as [->|HT]; [|reflexivity].
  exfalso. apply Hno. exists h. split; [done|]. split; by eexists.
Qed.

Lemma releasable_dec m p : (∃ h, releasable m p h) ∨ ¬ ∃ h, releasable m p h.
Proof.
  destruct (cells m !! p) as [[ty g|T elems|h]|] eqn:Hp;
    try (right; intros (h' & Hp' & _); congruence).
  assert (Hinv : (∃ h', releasable m p h') → releasable m p h).
  { intros (h' & Hr). assert (h' = h) as -> by (destruct Hr as [Hp' _]; congruence). done. }
  destruct (cells m !! graph_ h) as [[ty g|T elems|h']|] eqn:Hg;
    try (right; intros Hex; destruct (Hinv Hex) as (_ & [? Hg'] & _); congruence).
  destruct (decide (ty = stored_tuple h)) as [->|Hty].
  2:{ right. intros Hex. destruct (Hinv Hex) as (_ & [? Hg'] & _). congruence. }
  destruct (cells m !! number_map_ h) as [[ty g'|T elems|h']|] eqn:Hn;
    try (right; intros Hex; destruct (Hinv Hex) as (_ & _ & [? Hn']); congruence).
  destruct (decide (T = vertex_type_ h)) as [->|HT].
  2:{ right. intros Hex. destruct (Hinv Hex) as (_ & _ & [? Hn']). congruence. }
  left. exists h. split; [done|]. split; by eexists.
Qed.

(** A release that returns is the release of a releasable handle. *)
Lemma free_returns_inv m m' p u :
  cugraph_sg_graph_free p m = Returns u m' →
  ∃ h, releasable m p h ∧ m' = released m p h.
Proof.
  intros Hf. destruct (releasable_dec m p) as [[h Hh]|Hno].
  - rewrite (free_releasable m p h) in Hf by done. injection Hf as _ <-. eauto.
  - rewrite free_not_releasable in Hf by done. discriminate.
Qed.

(** Freeing the handle of a fresh construction, when the handle records the
    instantiation the graph was built with, gives back the cells there were
    before the construction. *)
Lemma free_constructed m ty g elems f :
  well_formed m →
  stored_tuple (handle_of ty f (next m)) = ty →
  cugraph_sg_graph_free (S (S (next m)))
      (constructed m ty g elems (handle_of ty f (next m))) =
    Returns tt {| cells := cells m; next := S (S (S (next m))) |}.
Proof.
  intros Hwf Hty.
  rewrite (free_releasable _ _ (handle_of ty f (next m))).
  2:{ split; [apply constructed_handle|]. split.
      - exists g. rewrite Hty. apply constructed_graph.
      - exists elems. replace (vertex_type_ (handle_of ty f (next m))) with ty.1.1.1.1
          by (by rewrite <- Hty at 1).
        apply constructed_number_map. }
  unfold released. f_equal. f_equal.
  cbn [cells next constructed abandoned handle_of graph_ number_map_].
  apply map_eq. intros i.
  destruct (decide (i = S (S (next m)))) as [->|];
    [rewrite lookup_delete_eq, fresh_above by (done || lia); done|].
  rewrite lookup_delete_ne by done.
  destruct (decide (i = S (next m))) as [->|];
    [rewrite lookup_delete_eq, fresh_above by (done || lia); done|].
  rewrite lookup_delete_ne by done.
  destruct (decide (i = next m)) as [->|];
    [rewrite lookup_delete_eq, fresh_above by (done || lia); done|].
  rewrite lookup_delete_ne by done.
  by do 5 rewrite lookup_insert_ne by done.
Qed.

End Constructed.

Lemma reference_renumbers_bijectively : renumbers_bijectively.
Proof.
  intros ty rows cols w p check g nm. cbn. unfold reference.builder.
  destruct (check && _); [done|].
  intros [= <- <-]. split; [apply NoDup_remove_dups|].
  intros v. unfold reference.labels. apply elem_of_remove_dups.
Qed.

Lemma empty_memory_well_formed `{Collaborators} : well_formed empty_memory.
Proof. intros p [o Ho]. cbn in Ho. by rewrite lookup_empty in Ho. Qed.

(** ** Validation *)

(** C3.  A call whose inputs violate one of the three conditions (sizes of
    [src] and [dst] equal, tags of [src] and [dst] equal, weights absent or
    of the size of [src]) returns [CUGRAPH_INVALID_INPUT] with the message of
    the first condition that fails, leaves the graph output null and leaves
    the store as it was: nothing has been constructed. *)
Theorem graph_create_rejects_invalid_input `{Collaborators}
    properties src dst weights store_transposed renumber check (m : memory) :
  ¬ valid_input src dst weights →
  cugraph_sg_graph_create properties src dst weights store_transposed renumber check m =
    Returns {| ret_code := CUGRAPH_INVALID_INPUT;
               graph_out := None;
               error_out := Some {| error_message_ := violation_message src dst |} |} m.
Proof.
  intros Hinv. unfold violation_message.
  destruct (valid_input_cases src dst weights)
    as [Hv|[Hs|[[Hs Ht]|(Hs & Ht & w & -> & Hw)]]]; [done|..].
  - rewrite decide_True by done. by apply create_size_mismatch.
  - rewrite decide_False by (by intros ?). rewrite decide_True by done.
    by apply create_type_mismatch.
  - rewrite decide_False by (by intros ?). rewrite decide_False by (by intros ?).
    by apply create_weights_mismatch.
Qed.

Lemma graph_create_rejects_invalid_input_witness :
  ¬ valid_input (array_of INT32 h_src) (array_of INT64 h_dst) (Some (array_of FLOAT32 h_wgt)) ∧
  cugraph_sg_graph_create no_properties
      (array_of INT32 h_src) (array_of INT64 h_dst) (Some (array_of FLOAT32 h_wgt))
      true false false empty_memory =
    Returns {| ret_code := CUGRAPH_INVALID_INPUT;
               graph_out := None;
               error_out :=
                 Some {| error_message_ := "Invalid input arguments: src type != dst type." |} |}
            empty_memory.
Proof.
  assert (Hinv : ¬ valid_input (array_of INT32 h_src) (array_of INT64 h_dst)
                     (Some (array_of FLOAT32 h_wgt))).
  { intros (_ & Ht & _). discriminate Ht. }
  split; [exact Hinv|].
  exact (graph_create_rejects_invalid_input no_properties _ _ _ true false false
           empty_memory Hinv).
Defined.

(** ** Dispatch *)

(** Past the three checks the registry is asked about the tuple with single
    precision weights, whatever the tag of the weight array. *)
Lemma create_unsupported_iff `{Collaborators}
    properties src dst w store_transposed renumber check (m : memory) :
  valid_input src dst (Some w) →
  cugraph_sg_graph_create properties src dst (Some w) store_transposed renumber check m =
    Returns {| ret_code := CUGRAPH_UNSUPPORTED_TYPE_COMBINATION;
               graph_out := None;
               error_out := Some {| error_message_ := unsupported_message |} |} m ↔
  no_registered_specialization (dispatched_tuple src FLOAT32 store_transposed) = true.
Proof.
  intros Hv. split.
  - intros Hc.
    pose proof (create_cases properties src dst (Some w) store_transposed renumber check m)
      as Hs.
    rewrite Hc in Hs.
    inversion Hs as [msg Hn|?|w' Hv' Hw' Hn|w' what m1 Hv' Hw' Hn|w' g nm elems Hv' Hw' Hn];
      subst; done.
  - intros Hn. rewrite create_dispatches by done. by rewrite call_unsupported.
Qed.

(** C4.  The code consults the registry on the wrong tuple.  With a weight
    array tagged as 32-bit integers the tuple of the call has no registered
    specialization, yet the call builds a graph and returns success, with a
    handle that records the integer tag; with no weight array and vertices
    tagged as floats the tuple has none either, and the call has no defined
    result.  In general a call that passes the checks with a weight array
    returns [CUGRAPH_UNSUPPORTED_TYPE_COMBINATION], with the store untouched,
    exactly when the tuple with single precision weights has no registered
    specialization, whatever the tag of the weight array. *)
Theorem graph_create_accepts_unregistered_tuple :
  (valid_input (array_of INT32 h_src) (array_of INT32 h_dst) (Some (array_of INT32 h_wgt)) ∧
   no_registered_specialization
     (declared_tuple (array_of INT32 h_src) (Some (array_of INT32 h_wgt)) true) = true ∧
   ∃ r m' p h,
     cugraph_sg_graph_create no_properties
         (array_of INT32 h_src) (array_of INT32 h_dst) (Some (array_of INT32 h_wgt))
         true false false empty_memory = Returns r m' ∧
     ret_code r = CUGRAPH_SUCCESS ∧
     graph_out r = Some p ∧
     cells m' !! p = Some (GraphHandle h) ∧
     weight_type_ h = INT32) ∧
  (valid_input (array_of FLOAT32 h_src) (array_of FLOAT32 h_dst) None ∧
   no_registered_specialization (declared_tuple (array_of FLOAT32 h_src) None true) = true ∧
   cugraph_sg_graph_create no_properties
       (array_of FLOAT32 h_src) (array_of FLOAT32 h_dst) None
       true false false empty_memory = Undefined) ∧
  (∀ (C : Collaborators) properties src dst w store_transposed renumber check (m : memory),
     valid_input src dst (Some w) →
     cugraph_sg_graph_create properties src dst (Some w) store_transposed renumber check m =
       Returns {| ret_code := CUGRAPH_UNSUPPORTED_TYPE_COMBINATION;
                  graph_out := None;
                  error_out := Some {| error_message_ := unsupported_message |} |} m ↔
     no_registered_specialization (dispatched_tuple src FLOAT32 store_transposed) = true).
Proof.
  split; [|split].
  - split; [repeat split; by intros w [= <-]|]. split; [reflexivity|].
    eexists _, _, 2, _. split; [vm_compute; reflexivity|].
    split; [reflexivity|]. split; [reflexivity|].
    split; vm_compute; reflexivity.
  - split; [repeat split; by intros w [=]|]. split; reflexivity.
  - intros C properties src dst w store_transposed renumber check m Hv.
    by apply create_unsupported_iff.
Qed.

Lemma graph_create_accepts_unregistered_tuple_witness :
  valid_input (array_of INT64 h_src) (array_of INT64 h_dst) (Some (array_of FLOAT32 h_wgt)) ∧
  (cugraph_sg_graph_create no_properties
       (array_of INT64 h_src) (array_of INT64 h_dst) (Some (array_of FLOAT32 h_wgt))
       true false false empty_memory =
     Returns {| ret_code := CUGRAPH_UNSUPPORTED_TYPE_COMBINATION;
                graph_out := None;
                error_out := Some {| error_message_ := unsupported_message |} |}
             empty_memory ↔
   no_registered_specialization
     (dispatched_tuple (array_of INT64 h_src) FLOAT32 true) = true).
Proof.
  assert (Hv : valid_input (array_of INT64 h_src) (array_of INT64 h_dst)
                 (Some (array_of FLOAT32 h_wgt))).
  { repeat split. by intros w [= <-]. }
  split; [exact Hv|].
  exact (proj2 (proj2 graph_create_accepts_unregistered_tuple) reference.collaborators
           no_properties _ _ _ true false false empty_memory Hv).
Defined.

(** ** Exceptions *)

(** C5.  When the call reaches the builder and the builder throws, the
    exception is caught: the call returns [CUGRAPH_UNKNOWN_ERROR] with an
    error object that carries the exception's text, and the graph output is
    null.  (The graph and the number map made before the builder ran stay
    in the store.) *)
Theorem graph_create_reports_builder_exception `{Collaborators}
    properties src dst weights store_transposed renumber check (m : memory) weight_type what :
  valid_input src dst weights →
  select_weight_type weights m = Returns weight_type m →
  no_registered_specialization (dispatched_tuple src weight_type store_transposed) = false →
  create_graph_from_edgelist (dispatched_tuple src weight_type store_transposed)
    (copy src) (copy dst) (copy_as weight_type <$> weights) properties renumber check =
    inl what →
  cugraph_sg_graph_create properties src dst weights store_transposed renumber check m =
    Returns {| ret_code := CUGRAPH_UNKNOWN_ERROR;
               graph_out := None;
               error_out := Some {| error_message_ := what |} |}
            (abandoned m (dispatched_tuple src weight_type store_transposed)).
Proof.
  intros Hv Hw Hn Hb.
  apply select_weight_type_returns in Hw as ([w ->] & -> & _).
  rewrite create_dispatches by done.
  rewrite (call_throws _ _ m what); [done|done| |].
  - apply copies_in_bounds_at_entry, Hv.
  - rewrite builder_result_at_entry by apply Hv. done.
Qed.

Lemma graph_create_reports_builder_exception_witness :
  valid_input (array_of INT32 [0; -1]%Z) (array_of INT32 [1; 0]%Z)
    (Some (array_of FLOAT32 [0; 0]%Z)) ∧
  cugraph_sg_graph_create no_properties
      (array_of INT32 [0; -1]%Z) (array_of INT32 [1; 0]%Z) (Some (array_of FLOAT32 [0; 0]%Z))
      true false true empty_memory =
    Returns {| ret_code := CUGRAPH_UNKNOWN_ERROR;
               graph_out := None;
               error_out :=
                 Some {| error_message_ :=
                           "Invalid input argument: vertex id out of range." |} |}
            (abandoned empty_memory (INT32, INT32, FLOAT32, true, false)).
Proof.
  assert (Hv : valid_input (array_of INT32 [0; -1]%Z) (array_of INT32 [1; 0]%Z)
                 (Some (array_of FLOAT32 [0; 0]%Z))).
  { repeat split. by intros w [= <-]. }
  split; [exact Hv|].
  exact (graph_create_reports_builder_exception no_properties _ _ _ true false true
           empty_memory FLOAT32 _ Hv eq_refl eq_refl eq_refl).
Defined.

(** ** The label map *)




(** ** Release *)

(** For a handle made from a weight array tagged as single precision, one
    call to [cugraph_sg_graph_free] releases everything the construction
    allocated. *)
Lemma free_after_create `{Collaborators}
    properties src dst weights store_transposed renumber check (m m' : memory) r p :
  well_formed m →
  cugraph_sg_graph_create properties src dst weights store_transposed renumber check m =
    Returns r m' →
  graph_out r = Some p →
  declared_weight_type weights = FLOAT32 →
  ∃ h m'',
    cells m' !! p = Some (GraphHandle h) ∧
    live m' (graph_ h) ∧
    live m' (number_map_ h) ∧
    cugraph_sg_graph_free p m' = Returns tt m'' ∧
    ¬ live m'' p ∧ ¬ live m'' (graph_ h) ∧ ¬ live m'' (number_map_ h) ∧
    cells m'' = cells m.
Proof.
  intros Hwf Hc Hp Hwt.
  assert (Hfresh : ∀ q : nat, (next m ≤ q)%nat → ¬ live m q).
  { intros q Hq Hl. apply Hwf in Hl. lia. }
  pose proof (create_cases properties src dst weights store_transposed renumber check m) as Hs.
  rewrite Hc in Hs.
  inversion Hs as [msg Hv|?|w Hv Hw Hn|w what m1 Hv Hw Hn|w g nm elems Hv Hw Hn Hb Hk];
    subst; try discriminate Hp.
  injection Hp as <-.
  eexists _, _.
  split; [apply constructed_handle|].
  split; [eexists; apply constructed_graph|].
  split; [eexists; apply constructed_number_map|].
  split.
  { apply free_constructed; [done|].
    unfold stored_tuple, handle_of, dispatched_tuple. cbn. cbn in Hwt. by rewrite Hwt. }
  cbn. repeat split; try done; apply Hfresh; lia.
Qed.

(** C7.  The release does not work for every handle the construction makes.
    For the graph of the pagerank test with a weight array tagged as double
    precision the construction succeeds, and freeing its handle has no
    defined result: the graph was built by the instantiation for single
    precision weights and is deleted through a pointer to the instantiation
    for double precision.  For every handle made from a weight array tagged
    as single precision the claim holds: one call deletes the graph, the
    label map and the handle, none of the three is live afterwards, and the
    cells that remain are exactly those that existed before the handle was
    created. *)
Theorem graph_free_fails_for_mistyped_handle :
  (∃ r m' p,
     cugraph_sg_graph_create no_properties
         (array_of INT32 h_src) (array_of INT32 h_dst) (Some (array_of FLOAT64 h_wgt))
         true false false empty_memory = Returns r m' ∧
     ret_code r = CUGRAPH_SUCCESS ∧
     graph_out r = Some p ∧
     cugraph_sg_graph_free p m' = Undefined) ∧
  (∀ (C : Collaborators) properties src dst weights store_transposed renumber check
     (m m' : memory) r p,
     well_formed m →
     cugraph_sg_graph_create properties src dst weights store_transposed renumber check m =
       Returns r m' →
     graph_out r = Some p →
     declared_weight_type weights = FLOAT32 →
     ∃ h m'',
       cells m' !! p = Some (GraphHandle h) ∧
       live m' (graph_ h) ∧
       live m' (number_map_ h) ∧
       cugraph_sg_graph_free p m' = Returns tt m'' ∧
       ¬ live m'' p ∧ ¬ live m'' (graph_ h) ∧ ¬ live m'' (number_map_ h) ∧
       cells m'' = cells m).
Proof.
  split.
  - eexists _, _, 2. split; [vm_compute; reflexivity|].
    split; [reflexivity|]. split; [reflexivity|].
    vm_compute; reflexivity.
  - intros C properties src dst weights store_transposed renumber check m m' r p.
    apply free_after_create.
Qed.

Lemma graph_free_fails_for_mistyped_handle_witness :
  well_formed empty_memory ∧
  ∃ r m',
    cugraph_sg_graph_create no_properties
        (array_of INT32 h_src) (array_of INT32 h_dst) (Some (array_of FLOAT32 h_wgt))
        true false false empty_memory = Returns r m' ∧
    graph_out r = Some 2 ∧
    declared_weight_type (Some (array_of FLOAT32 h_wgt)) = FLOAT32 ∧
    ∃ h m'',
      cells m' !! 2 = Some (GraphHandle h) ∧
      live m' (graph_ h) ∧
      live m' (number_map_ h) ∧
      cugraph_sg_graph_free 2 m' = Returns tt m'' ∧
      ¬ live m'' 2 ∧ ¬ live m'' (graph_ h) ∧ ¬ live m'' (number_map_ h) ∧
      cells m'' = cells empty_memory.
Proof.
  split; [exact empty_memory_well_formed|].
  eexists _, _. split; [vm_compute; reflexivity|]. split; [reflexivity|].
  split; [reflexivity|].
  eapply (proj2 graph_free_fails_for_mistyped_handle reference.collaborators no_properties
            (array_of INT32 h_src) (array_of INT32 h_dst) (Some (array_of FLOAT32 h_wgt))
            true false false empty_memory).
  - exact empty_memory_well_formed.
  - vm_compute; reflexivity.
  - reflexivity.
  - reflexivity.
Defined.

(** ** Where the code departs from its documentation *)

(** C1.  The weight type handed to the dispatcher is selected the wrong way
    round: with a weight array it is single precision float whatever the
    array's tag (here a double precision array, whose declared type is
    [FLOAT64]), and without one the selection reads the tag through the null
    pointer. *)
Theorem weight_type_selection_is_inverted :
  (∀ S w (s : S), select_weight_type (Some w) s = Returns FLOAT32 s) ∧
  (∀ S (s : S), select_weight_type None s = Undefined) ∧
  declared_weight_type (Some (array_of FLOAT64 h_wgt)) = FLOAT64 ∧
  select_weight_type (Some (array_of FLOAT64 h_wgt)) empty_memory =
    Returns FLOAT32 empty_memory.
Proof. by repeat split. Qed.

(** C2.  The threshold is [2 xor 30], that is 28, not [2^31 - 1]: the narrow
    edge type is chosen exactly below 28 edges.  With 28 edges, far below
    [2^31 - 1], the call succeeds and the handle records the wide type. *)
Theorem edge_type_threshold_is_28 :
  int32_threshold = 28%N ∧
  (∀ src, select_edge_type src = INT32 ↔ (size_ src < 28)%N) ∧
  (size_ (array_of INT32 (replicate 28 0%Z)) < 2 ^ 31 - 1)%N ∧
  select_edge_type (array_of INT32 (replicate 28 0%Z)) = INT64 ∧
  ∃ r m' p h,
    cugraph_sg_graph_create no_properties
        (array_of INT32 (replicate 28 0%Z)) (array_of INT32 (replicate 28 1%Z))
        (Some (array_of FLOAT32 (replicate 28 0%Z)))
        true false false empty_memory = Returns r m' ∧
    ret_code r = CUGRAPH_SUCCESS ∧
    graph_out r = Some p ∧
    cells m' !! p = Some (GraphHandle h) ∧
    edge_type_ h = INT64.
Proof.
  split; [reflexivity|]. split; [apply select_edge_type_narrow|].
  split; [reflexivity|]. split; [reflexivity|].
  eexists _, _, 2, _. split; [vm_compute; reflexivity|].
  split; [reflexivity|]. split; [reflexivity|].
  split; vm_compute; reflexivity.
Qed.

(** C9.  With a double precision weight array the graph is constructed by
    the instantiation for single precision weights, while the handle records
    double precision: the tuple [cugraph_sg_graph_free] dispatches on is not
    the tuple the graph was built with. *)
Theorem handle_tuple_differs_from_construction :
  ∃ r m' p h g,
    cugraph_sg_graph_create no_properties
        (array_of INT32 h_src) (array_of INT32 h_dst) (Some (array_of FLOAT64 h_wgt))
        true false false empty_memory = Returns r m' ∧
    ret_code r = CUGRAPH_SUCCESS ∧
    graph_out r = Some p ∧
    cells m' !! p = Some (GraphHandle h) ∧
    cells m' !! graph_ h = Some (Graph (INT32, INT32, FLOAT32, true, false) g) ∧
    stored_tuple h = (INT32, INT32, FLOAT64, true, false) ∧
    stored_tuple h ≠ (INT32, INT32, FLOAT32, true, false).
Proof.
  eexists _, _, 2, _, _. split; [vm_compute; reflexivity|].
  split; [reflexivity|]. split; [reflexivity|].
  split; [vm_compute; reflexivity|].
  split; [vm_compute; reflexivity|].
  split; [reflexivity|]. discriminate.
Qed.

(** C10.  Without a weight array the branch that selects the weight type is
    the read of [type_] through the null weights pointer; a call that passes
    the checks has no defined result. *)
Theorem absent_weights_are_dereferenced :
  (∀ S (s : S), select_weight_type None s = arrow None type_ s) ∧
  (∀ S (s : S), arrow (A := cugraph_type_erased_device_array_t) None type_ s = Undefined) ∧
  cugraph_sg_graph_create no_properties
      (array_of INT32 h_src) (array_of INT32 h_dst) None
      true false false empty_memory = Undefined.
Proof. by repeat split. Qed.

(** * Part V: further properties of the two entry points *)

(** ** The store under construction *)

Section StoreFacts.
Context `{Collaborators}.
Implicit Types (m : memory) (o : object).

Lemma well_formed_fresh m o :
  well_formed m →
  well_formed {| cells := <[next m := o]> (cells m); next := S (next m) |}.
Proof.
  intros Hwf p [x Hx]. cbn in *.
  destruct (decide (p = next m)) as [->|Hne]; [lia|].
  rewrite lookup_insert_ne in Hx by done.
  assert (p < next m) by (apply Hwf; by eexists). lia.
Qed.

Lemma well_formed_overwrite m (p : nat) o :
  well_formed m → p < next m →
  well_formed {| cells := <[p := o]> (cells m); next := next m |}.
Proof.
  intros Hwf Hp q [x Hx]. cbn in *.
  destruct (decide (q = p)) as [->|Hne]; [done|].
  rewrite lookup_insert_ne in Hx by done. apply Hwf. by eexists.
Qed.

Lemma well_formed_delete m (p : nat) :
  well_formed m →
  well_formed {| cells := delete p (cells m); next := next m |}.
Proof.
  intros Hwf q [x Hx]. cbn in *.
  destruct (decide (q = p)) as [->|Hne]; [by rewrite lookup_delete_eq in Hx|].
  rewrite lookup_delete_ne in Hx by done. apply Hwf. by eexists.
Qed.

Lemma extends_refl m : extends m m.
Proof. split; [lia|done]. Qed.

Lemma extends_trans m1 m2 m3 : extends m1 m2 → extends m2 m3 → extends m1 m3.
Proof.
  intros [Hn1 Hc1] [Hn2 Hc2]. split; [lia|].
  intros p Hp. rewrite Hc2 by lia. by apply Hc1.
Qed.

Lemma well_formed_abandoned m ty : well_formed m → well_formed (abandoned m ty).
Proof.
  intros Hwf.
  exact (well_formed_fresh _ (DeviceUVector ty.1.1.1.1 [])
           (well_formed_fresh m (Graph ty empty_graph) Hwf)).
Qed.

Lemma extends_abandoned m ty : extends m (abandoned m ty).
Proof.
  split; cbn; [lia|]. intros p Hp. by do 2 rewrite lookup_insert_ne by lia.
Qed.

Lemma well_formed_built_without_map m ty g :
  well_formed m → well_formed (built_without_map m ty g).
Proof.
  intros Hwf.
  assert (Hlt : next m < next (abandoned m ty)) by (cbn; lia).
  exact (well_formed_overwrite (abandoned m ty) (next m) (Graph ty g)
           (well_formed_abandoned m ty Hwf) Hlt).
Qed.

Lemma extends_built_without_map m ty g : extends m (built_without_map m ty g).
Proof.
  split; cbn; [lia|]. intros p Hp. by do 3 rewrite lookup_insert_ne by lia.
Qed.

Lemma well_formed_constructed m ty g elems h :
  well_formed m → well_formed (constructed m ty g elems h).
Proof.
  intros Hwf.
  assert (Hlt : S (next m) < next (built_without_map m ty g)) by (cbn; lia).
  exact (well_formed_fresh _ (GraphHandle h)
           (well_formed_overwrite (built_without_map m ty g) (S (next m))
              (DeviceUVector ty.1.1.1.1 elems)
              (well_formed_built_without_map m ty g Hwf) Hlt)).
Qed.

Lemma extends_constructed m ty g elems h : extends m (constructed m ty g elems h).
Proof.
  split; cbn; [lia|]. intros p Hp. by do 5 rewrite lookup_insert_ne by lia.
Qed.

Lemma call_without_map_store ty f m g :
  no_registered_specialization ty = false →
  create_graph_functor.copies_in_bounds ty f = true →
  create_graph_functor.builder_result ty f = inr (g, None) →
  create_graph_functor.renumber_ f = true →
  create_graph_functor.call ty f m =
    Throws "bad optional access" (built_without_map m ty g).
Proof.
  destruct ty as [[[[v e] w] st] mg]. cbn [no_registered_specialization]. intros Hn Hin Hb Hr.
  unfold create_graph_functor.call. rewrite Hn.
  unfold bind, new, create_graph_functor.build. rewrite Hin, Hb. cbn.
  unfold assign at 1. cbn.
  rewrite lookup_insert_ne by lia. rewrite lookup_insert_eq.
  rewrite Hr. reflexivity.
Qed.
End StoreFacts.

(** ** Every outcome of a construction, with its store *)

Section OutcomeFacts.
Context `{Collaborators}.

Lemma create_outcomes properties src dst weights store_transposed renumber check m :
  create_outcome properties src dst weights store_transposed renumber check m
    (cugraph_sg_graph_create properties src dst weights store_transposed renumber check m).
Proof.
  destruct (valid_input_cases src dst weights)
    as [Hv|[Hs|[[Hs Ht]|(Hs & Ht & w & -> & Hw)]]].
  - destruct weights as [w|].
    2:{ rewrite create_without_weights by done. by constructor. }
    rewrite create_dispatches by done.
    set (ty := dispatched_tuple src FLOAT32 store_transposed).
    set (f := create_graph_functor.make _ _ _ _ _ _ _).
    destruct (no_registered_specialization ty) eqn:Hn.
    { rewrite call_unsupported by done. cbn. by eapply outcome_unsupported. }
    pose proof (builder_result_at_entry properties src dst (Some w) store_transposed
                  renumber check FLOAT32 (select_edge_type src) (proj1 (proj2 Hv))) as Hbr.
    fold ty f in Hbr. cbn [fmap option_fmap option_map] in Hbr.
    pose proof (copies_in_bounds_at_entry properties src dst (Some w) store_transposed
                  renumber check (select_edge_type src) (proj1 (proj2 Hv))) as Hin.
    fold ty f in Hin.
    destruct (create_graph_from_edgelist ty (copy src) (copy dst) (Some (copy_as FLOAT32 w))
                properties renumber check) as [what|[g nm]] eqn:Hb.
    { rewrite (call_throws ty f m what) by done. cbn. by eapply outcome_builder_threw. }
    destruct (kept_number_map renumber g nm) as [elems|] eqn:Hk.
    { rewrite (call_builds ty f m g nm elems) by done. cbn. by eapply outcome_built. }
    unfold kept_number_map in Hk. destruct renumber; [|done]. subst nm.
    rewrite (call_without_map_store ty f m g) by done.
    cbn. by eapply outcome_no_map.
  - rewrite create_size_mismatch by done.
    replace "Invalid input arguments: src size != dst size."
      with (violation_message src dst)
      by (unfold violation_message; by rewrite decide_True).
    constructor. by intros [? _].
  - rewrite create_type_mismatch by done.
    replace "Invalid input arguments: src type != dst type."
      with (violation_message src dst).
    2:{ unfold violation_message. rewrite decide_False by (by intros ?).
        by rewrite decide_True. }
    constructor. by intros (_ & ? & _).
  - rewrite create_weights_mismatch by done.
    replace "Invalid input arguments: src size != weights size."
      with (violation_message src dst).
    2:{ unfold violation_message. rewrite decide_False by (by intros ?).
        by rewrite decide_False by (by intros ?). }
    constructor. intros (_ & _ & Hw'). by specialize (Hw' w eq_refl).
Qed.

End OutcomeFacts.

(** X1.  A call succeeds exactly when the three checks pass, a weight array
    is supplied, the tuple of the source tag, the selected edge tag and
    single precision weights is a candidate, and the builder returns, with a
    map if [renumber] is set. *)
Theorem graph_create_succeeds_iff `{Collaborators}
    properties src dst weights store_transposed renumber check (m : memory) :
  (∃ r m',
     cugraph_sg_graph_create properties src dst weights store_transposed renumber check m =
       Returns r m' ∧ ret_code r = CUGRAPH_SUCCESS) ↔
  valid_input src dst weights ∧
  is_Some weights ∧
  is_candidate (type_ src) (select_edge_type src) FLOAT32 = true ∧
  ∃ g nm,
    create_graph_from_edgelist (dispatched_tuple src FLOAT32 store_transposed)
      (copy src) (copy dst) (copy_as FLOAT32 <$> weights) properties renumber check =
      inr (g, nm) ∧
    (renumber = true → is_Some nm).
Proof.
  pose proof (create_outcomes properties src dst weights store_transposed renumber check m) as Ho.
  split.
  - intros (r & m' & Hc & Hr). rewrite Hc in Ho.
    inversion Ho as [?|Hv' ?|w' Hv' Hw' Hn'|w' what Hv' Hw' Hn' Hb'
                     |w' g' Hv' Hw' Hn' Hb' Hr'|w' g' nm' elems' Hv' Hw' Hn' Hb' Hk'];
      subst; try discriminate Hr.
    cbn in Hn'. apply negb_false_iff in Hn'.
    split; [done|]. split; [by eexists|]. split; [done|].
    eexists _, _. split; [done|]. intros ->.
    unfold kept_number_map in Hk'. subst nm'. by eexists.
  - intros (Hv & [w ->] & Hcand & g & nm & Hb & Hnm).
    assert (Hn : no_registered_specialization
                   (dispatched_tuple src FLOAT32 store_transposed) = false).
    { cbn. by rewrite Hcand. }
    assert (∃ elems, kept_number_map renumber g nm = Some elems) as [elems Hk].
    { unfold kept_number_map. destruct renumber; [by apply Hnm|by eexists]. }
    eexists _, _. rewrite create_dispatches by done.
    rewrite (call_builds _ _ m g nm elems); [cbn; eauto|done| | |done].
    + apply copies_in_bounds_at_entry, Hv.
    + rewrite builder_result_at_entry by apply Hv. exact Hb.
Qed.

(** X2.  Whenever the call returns, the two outputs follow the status: on
    success the graph output is set and the error output is null; on any
    other status the graph output is null and the error output is set. *)
Theorem graph_create_outputs_follow_status `{Collaborators}
    properties src dst weights store_transposed renumber check (m m' : memory) r :
  cugraph_sg_graph_create properties src dst weights store_transposed renumber check m =
    Returns r m' →
  (ret_code r = CUGRAPH_SUCCESS → is_Some (graph_out r) ∧ error_out r = None) ∧
  (ret_code r ≠ CUGRAPH_SUCCESS → graph_out r = None ∧ is_Some (error_out r)).
Proof.
  intros Hc.
  pose proof (create_outcomes properties src dst weights store_transposed renumber check m) as Ho.
  rewrite Hc in Ho.
  inversion Ho; subst; cbn; (split; [intros ?|intros ?]); try done; eauto.
Qed.

Lemma graph_create_outputs_follow_status_witness :
  ∃ r m',
    test_graph_call false false empty_memory = Returns r m' ∧
    (ret_code r = CUGRAPH_SUCCESS → is_Some (graph_out r) ∧ error_out r = None) ∧
    (ret_code r ≠ CUGRAPH_SUCCESS → graph_out r = None ∧ is_Some (error_out r)).
Proof.
  eexists _, _. split; [vm_compute; reflexivity|].
  eapply (graph_create_outputs_follow_status no_properties
            (array_of INT32 h_src) (array_of INT32 h_dst) (Some (array_of FLOAT32 h_wgt))
            true false false empty_memory).
  vm_compute; reflexivity.
Defined.

(** X3.  The call has no defined result exactly when the checks pass and the
    weight array is null; in every other case it returns: no exception
    leaves the entry point. *)
Theorem graph_create_defined_unless_null_weights `{Collaborators}
    properties src dst weights store_transposed renumber check (m : memory) :
  (cugraph_sg_graph_create properties src dst weights store_transposed renumber check m =
     Undefined ↔ valid_input src dst weights ∧ weights = None) ∧
  ((∃ r m',
      cugraph_sg_graph_create properties src dst weights store_transposed renumber check m =
        Returns r m') ↔ ¬ (valid_input src dst weights ∧ weights = None)).
Proof.
  pose proof (create_outcomes properties src dst weights store_transposed renumber check m) as Ho.
  destruct (cugraph_sg_graph_create properties src dst weights store_transposed renumber
              check m) as [r m'|what m'|] eqn:Hc.
  - assert (Hnot : ¬ (valid_input src dst weights ∧ weights = None)).
    { intros [Hv Hw]. inversion Ho; subst; done. }
    split; [split; [done|by intros ?]|]. split; [done|eauto].
  - inversion Ho.
  - assert (Hyes : valid_input src dst weights ∧ weights = None) by (by inversion Ho).
    split; [done|]. split; [by intros (? & ? & ?)|done].
Qed.

(** X4.  The handle of a successful call records the source array's tag, the
    selected edge tag, the weight array's tag, [store_transposed] as given
    and [multi_gpu] off; the graph, the number map and the handle are the
    three objects allocated by the call, in that order, at fresh addresses. *)
Theorem graph_create_handle_records `{Collaborators}
    properties src dst weights store_transposed renumber check (m m' : memory) r p :
  cugraph_sg_graph_create properties src dst weights store_transposed renumber check m =
    Returns r m' →
  graph_out r = Some p →
  ∃ h w,
    weights = Some w ∧
    cells m' !! p = Some (GraphHandle h) ∧
    vertex_type_ h = type_ src ∧
    edge_type_ h = select_edge_type src ∧
    weight_type_ h = type_ w ∧
    store_transposed_ h = store_transposed ∧
    multi_gpu_ h = false ∧
    graph_ h = next m ∧
    number_map_ h = S (next m) ∧
    p = S (S (next m)) ∧
    next m' = S p.
Proof.
  intros Hc Hp.
  pose proof (create_outcomes properties src dst weights store_transposed renumber check m) as Ho.
  rewrite Hc in Ho.
  inversion Ho; subst; try discriminate Hp.
  injection Hp as <-.
  eexists _, _. split; [done|]. split; [apply constructed_handle|].
  by repeat split.
Qed.

Lemma graph_create_handle_records_witness :
  ∃ r m',
    cugraph_sg_graph_create no_properties
        (array_of INT32 h_src) (array_of INT32 h_dst) (Some (array_of FLOAT64 h_wgt))
        false true false empty_memory = Returns r m' ∧
    graph_out r = Some 2 ∧
    ∃ h w,
      Some (array_of FLOAT64 h_wgt) = Some w ∧
      cells m' !! 2 = Some (GraphHandle h) ∧
      vertex_type_ h = INT32 ∧
      edge_type_ h = INT32 ∧
      weight_type_ h = type_ w ∧
      store_transposed_ h = false ∧
      multi_gpu_ h = false ∧
      graph_ h = 0 ∧
      number_map_ h = 1 ∧
      2 = 2 ∧
      next m' = 3.
Proof.
  eexists _, _. split; [vm_compute; reflexivity|]. split; [reflexivity|].
  eapply (graph_create_handle_records no_properties
            (array_of INT32 h_src) (array_of INT32 h_dst) (Some (array_of FLOAT64 h_wgt))
            false true false empty_memory).
  - vm_compute; reflexivity.
  - reflexivity.
Defined.

(** X5.  Whatever its status, a call that returns keeps the store well
    formed and leaves every object that existed before untouched. *)
Theorem graph_create_extends_store `{Collaborators}
    properties src dst weights store_transposed renumber check (m m' : memory) r :
  well_formed m →
  cugraph_sg_graph_create properties src dst weights store_transposed renumber check m =
    Returns r m' →
  well_formed m' ∧ extends m m'.
Proof.
  intros Hwf Hc.
  pose proof (create_outcomes properties src dst weights store_transposed renumber check m) as Ho.
  rewrite Hc in Ho.
  inversion Ho; subst.
  - split; [done|apply extends_refl].
  - split; [done|apply extends_refl].
  - split; [by apply well_formed_abandoned|apply extends_abandoned].
  - split; [by apply well_formed_built_without_map|apply extends_built_without_map].
  - split; [by apply well_formed_constructed|apply extends_constructed].
Qed.

Lemma graph_create_extends_store_witness :
  well_formed empty_memory ∧
  ∃ r m',
    test_graph_call false false empty_memory = Returns r m' ∧
    well_formed m' ∧ extends empty_memory m'.
Proof.
  split; [exact empty_memory_well_formed|].
  eexists _, _. split; [vm_compute; reflexivity|].
  eapply (graph_create_extends_store no_properties
            (array_of INT32 h_src) (array_of INT32 h_dst) (Some (array_of FLOAT32 h_wgt))
            true false false empty_memory).
  - exact empty_memory_well_formed.
  - vm_compute; reflexivity.
Defined.

(** X6.  A call that returns [CUGRAPH_INVALID_INPUT] or
    [CUGRAPH_UNSUPPORTED_TYPE_COMBINATION] leaves the store exactly as it
    was. *)
Theorem graph_create_early_failure_keeps_store `{Collaborators}
    properties src dst weights store_transposed renumber check (m m' : memory) r :
  cugraph_sg_graph_create properties src dst weights store_transposed renumber check m =
    Returns r m' →
  ret_code r = CUGRAPH_INVALID_INPUT ∨ ret_code r = CUGRAPH_UNSUPPORTED_TYPE_COMBINATION →
  m' = m.
Proof.
  intros Hc Hr.
  pose proof (create_outcomes properties src dst weights store_transposed renumber check m) as Ho.
  rewrite Hc in Ho.
  inversion Ho; subst; cbn in Hr; try done; by destruct Hr.
Qed.

Lemma graph_create_early_failure_keeps_store_witness :
  ∃ r m',
    cugraph_sg_graph_create no_properties
        (array_of INT64 h_src) (array_of INT64 h_dst) (Some (array_of FLOAT32 h_wgt))
        true false false empty_memory = Returns r m' ∧
    (ret_code r = CUGRAPH_INVALID_INPUT ∨
     ret_code r = CUGRAPH_UNSUPPORTED_TYPE_COMBINATION) ∧
    m' = empty_memory.
Proof.
  eexists _, _. split; [vm_compute; reflexivity|]. split; [by right|].
  eapply (graph_create_early_failure_keeps_store no_properties
            (array_of INT64 h_src) (array_of INT64 h_dst) (Some (array_of FLOAT32 h_wgt))
            true false false empty_memory).
  - vm_compute; reflexivity.
  - by right.
Defined.

(** X7.  A call that returns [CUGRAPH_UNKNOWN_ERROR] has allocated the graph
    and the number map and has not deleted them: both are live in the store
    it leaves, at addresses that were free before, while the graph output is
    null. *)
Theorem graph_create_unknown_error_leaks `{Collaborators}
    properties src dst weights store_transposed renumber check (m m' : memory) r :
  well_formed m →
  cugraph_sg_graph_create properties src dst weights store_transposed renumber check m =
    Returns r m' →
  ret_code r = CUGRAPH_UNKNOWN_ERROR →
  graph_out r = None ∧
  ¬ live m (next m) ∧ ¬ live m (S (next m)) ∧
  (∃ g, cells m' !! next m =
          Some (Graph (dispatched_tuple src FLOAT32 store_transposed) g)) ∧
  cells m' !! S (next m) = Some (DeviceUVector (type_ src) []) ∧
  next m' = S (S (next m)).
Proof.
  intros Hwf Hc Hr.
  assert (Hfresh : ∀ q : nat, (next m ≤ q)%nat → ¬ live m q).
  { intros q Hq Hl. apply Hwf in Hl. lia. }
  pose proof (create_outcomes properties src dst weights store_transposed renumber check m) as Ho.
  rewrite Hc in Ho.
  inversion Ho; subst; try discriminate Hr.
  - split; [done|]. split; [apply Hfresh; lia|]. split; [apply Hfresh; lia|].
    cbn. split; [eexists; rewrite lookup_insert_ne by lia; by rewrite lookup_insert_eq|].
    split; [by rewrite lookup_insert_eq|done].
  - split; [done|]. split; [apply Hfresh; lia|]. split; [apply Hfresh; lia|].
    cbn. split; [eexists; by rewrite lookup_insert_eq|].
    split; [|done]. rewrite lookup_insert_ne by lia. by rewrite lookup_insert_eq.
Qed.

Lemma graph_create_unknown_error_leaks_witness :
  well_formed empty_memory ∧
  ∃ r m',
    cugraph_sg_graph_create no_properties
        (array_of INT32 [0; -1]%Z) (array_of INT32 [1; 0]%Z) (Some (array_of FLOAT32 [0; 0]%Z))
        true false true empty_memory = Returns r m' ∧
    ret_code r = CUGRAPH_UNKNOWN_ERROR ∧
    graph_out r = None ∧
    ¬ live empty_memory 0 ∧ ¬ live empty_memory 1 ∧
    (∃ g, cells m' !! 0 = Some (Graph (INT32, INT32, FLOAT32, true, false) g)) ∧
    cells m' !! 1 = Some (DeviceUVector INT32 []) ∧
    next m' = 2.
Proof.
  split; [exact empty_memory_well_formed|].
  eexists _, _. split; [vm_compute; reflexivity|]. split; [reflexivity|].
  eapply (graph_create_unknown_error_leaks no_properties
            (array_of INT32 [0; -1]%Z) (array_of INT32 [1; 0]%Z)
            (Some (array_of FLOAT32 [0; 0]%Z))
            true false true empty_memory).
  - exact empty_memory_well_formed.
  - vm_compute; reflexivity.
  - reflexivity.
Defined.

(** X8.  When [renumber] is set and the builder returns a graph without a
    map, taking the map's value throws and the call returns
    [CUGRAPH_UNKNOWN_ERROR] with a null graph output and an error object. *)
Theorem graph_create_renumber_without_map `{Collaborators}
    properties src dst w store_transposed check (m : memory) g :
  valid_input src dst (Some w) →
  is_candidate (type_ src) (select_edge_type src) FLOAT32 = true →
  create_graph_from_edgelist (dispatched_tuple src FLOAT32 store_transposed)
    (copy src) (copy dst) (Some (copy_as FLOAT32 w)) properties true check = inr (g, None) →
  ∃ r m',
    cugraph_sg_graph_create properties src dst (Some w) store_transposed true check m =
      Returns r m' ∧
    ret_code r = CUGRAPH_UNKNOWN_ERROR ∧
    graph_out r = None ∧
    is_Some (error_out r).
Proof.
  intros Hv Hcand Hb.
  eexists _, _. rewrite create_dispatches by done.
  rewrite (call_without_map_store _ _ m g); [cbn; eauto| by cbn; rewrite Hcand | | |done].
  - apply copies_in_bounds_at_entry, Hv.
  - rewrite builder_result_at_entry by apply Hv. exact Hb.
Qed.

Lemma graph_create_renumber_without_map_witness :
  valid_input (array_of INT32 h_src) (array_of INT32 h_dst) (Some (array_of FLOAT32 h_wgt)) ∧
  ∃ r m',
    cugraph_sg_graph_create (H := mapless.collaborators) no_properties
        (array_of INT32 h_src) (array_of INT32 h_dst) (Some (array_of FLOAT32 h_wgt))
        true true false empty_memory = Returns r m' ∧
    ret_code r = CUGRAPH_UNKNOWN_ERROR ∧
    graph_out r = None ∧
    is_Some (error_out r).
Proof.
  assert (Hv : valid_input (array_of INT32 h_src) (array_of INT32 h_dst)
                 (Some (array_of FLOAT32 h_wgt))).
  { repeat split. by intros w [= <-]. }
  split; [exact Hv|].
  exact (graph_create_renumber_without_map (H := mapless.collaborators) no_properties
           _ _ _ true false empty_memory _ Hv eq_refl eq_refl).
Defined.

(** ** Every outcome of a release *)


(** X9.  [cugraph_sg_graph_free] returns exactly when its argument points to
    a handle whose [graph_] points to a live graph of the instantiation the
    handle's five tags name and whose [number_map_] points to a live vector
    of the handle's vertex type, and then the store it leaves is the old one
    without these three objects; in every other case (a dangling pointer, a
    pointer to something else, a handle whose graph or map was already
    deleted, or is an object of another type than the tags name) the call
    has no defined result. *)
Theorem graph_free_outcomes `{Collaborators} (m : memory) (p : nat) :
  (∃ h, releasable m p h ∧ cugraph_sg_graph_free p m = Returns tt (released m p h)) ∨
  ((¬ ∃ h, releasable m p h) ∧ cugraph_sg_graph_free p m = Undefined).
Proof.
  destruct (releasable_dec m p) as [[h Hh]|Hno].
  - left. exists h. split; [done|by apply free_releasable].
  - right. split; [done|by apply free_not_releasable].
Qed.

(** X10.  Freeing the same handle a second time has no defined result. *)
Theorem graph_free_twice_is_undefined `{Collaborators} (m m' : memory) (p : nat) u :
  cugraph_sg_graph_free p m = Returns u m' →
  cugraph_sg_graph_free p m' = Undefined.
Proof.
  intros Hf.
  destruct (releasable_dec m p) as [[h Hh]|Hno].
  2:{ rewrite free_not_releasable in Hf by done. discriminate. }
  rewrite (free_releasable m p h) in Hf by done. injection Hf as _ <-.
  apply free_not_releasable. intros (h' & Hp' & _).
  cbn in Hp'. by rewrite lookup_delete_eq in Hp'.
Qed.

Lemma graph_free_twice_is_undefined_witness :
  ∃ m',
    cugraph_sg_graph_free 2 test_graph_store = Returns tt m' ∧
    cugraph_sg_graph_free 2 m' = Undefined.
Proof.
  eexists. split; [vm_compute; reflexivity|].
  eapply (graph_free_twice_is_undefined test_graph_store _ 2 tt).
  vm_compute; reflexivity.
Defined.

(** X11.  A release that returns allocates nothing, changes no cell other
    than the handle, its graph and its number map, and keeps the store well
    formed. *)
Theorem graph_free_touches_only_its_cells `{Collaborators} (m m' : memory) (p : nat) u :
  cugraph_sg_graph_free p m = Returns u m' →
  ∃ h,
    cells m !! p = Some (GraphHandle h) ∧
    next m' = next m ∧
    (∀ q : nat, q ≠ p → q ≠ graph_ h → q ≠ number_map_ h → cells m' !! q = cells m !! q) ∧
    (∀ q : nat, live m' q → live m q) ∧
    (well_formed m → well_formed m').
Proof.
  intros Hf.
  destruct (releasable_dec m p) as [[h Hh]|Hno].
  2:{ rewrite free_not_releasable in Hf by done. discriminate. }
  rewrite (free_releasable m p h) in Hf by done. injection Hf as _ <-.
  exists h. split; [apply Hh|]. split; [done|].
  assert (Hsub : ∀ q : nat, live (released m p h) q → live m q).
  { intros q [o Ho]. cbn in Ho.
    apply lookup_delete_Some in Ho as [_ Ho].
    apply lookup_delete_Some in Ho as [_ Ho].
    apply lookup_delete_Some in Ho as [_ Ho]. by eexists. }
  split; [|split; [done|]].
  - intros q ? ? ?. cbn. by do 3 rewrite lookup_delete_ne by done.
  - intros Hwf q Hq. cbn. apply Hwf. by apply Hsub.
Qed.

Lemma graph_free_touches_only_its_cells_witness :
  ∃ m',
    cugraph_sg_graph_free 2 test_graph_store = Returns tt m' ∧
    ∃ h,
      cells test_graph_store !! 2 = Some (GraphHandle h) ∧
      next m' = next test_graph_store ∧
      (∀ q : nat, q ≠ 2 → q ≠ graph_ h → q ≠ number_map_ h →
                  cells m' !! q = cells test_graph_store !! q) ∧
      (∀ q : nat, live m' q → live test_graph_store q) ∧
      (well_formed test_graph_store → well_formed m').
Proof.
  eexists. split; [vm_compute; reflexivity|].
  eapply (graph_free_touches_only_its_cells test_graph_store _ 2 tt).
  vm_compute; reflexivity.
Defined.

(** ** Two graphs *)

Ltac map_lookup :=
  repeat first
    [ rewrite lookup_delete_eq
    | rewrite lookup_insert_eq
    | rewrite lookup_delete_ne by lia
    | rewrite lookup_insert_ne by lia ].

(** X12.  Two graphs built one after the other, each from a weight array
    tagged as single precision, have different handles and share nothing:
    freeing the first leaves the second handle, its graph and its number map
    as they were, the second can then be freed as well, and after both
    releases the store holds exactly what it held before the first
    construction. *)
Theorem two_graphs_are_released_independently `{Collaborators}
    properties1 src1 dst1 weights1 store_transposed1 renumber1 check1
    properties2 src2 dst2 weights2 store_transposed2 renumber2 check2
    (m m1 m2 : memory) r1 r2 p1 p2 :
  well_formed m →
  cugraph_sg_graph_create properties1 src1 dst1 weights1
    store_transposed1 renumber1 check1 m = Returns r1 m1 →
  graph_out r1 = Some p1 →
  cugraph_sg_graph_create properties2 src2 dst2 weights2
    store_transposed2 renumber2 check2 m1 = Returns r2 m2 →
  graph_out r2 = Some p2 →
  declared_weight_type weights1 = FLOAT32 →
  declared_weight_type weights2 = FLOAT32 →
  p1 ≠ p2 ∧
  ∃ h2 m3 m4,
    cugraph_sg_graph_free p1 m2 = Returns tt m3 ∧
    cells m2 !! p2 = Some (GraphHandle h2) ∧
    cells m3 !! p2 = cells m2 !! p2 ∧
    cells m3 !! graph_ h2 = cells m2 !! graph_ h2 ∧
    cells m3 !! number_map_ h2 = cells m2 !! number_map_ h2 ∧
    cugraph_sg_graph_free p2 m3 = Returns tt m4 ∧
    cells m4 = cells m.
Proof.
  intros Hwf Hc1 Hp1 Hc2 Hp2 Hwt1 Hwt2.
  pose proof (create_outcomes properties1 src1 dst1 weights1
                store_transposed1 renumber1 check1 m) as Ho1.
  rewrite Hc1 in Ho1.
  inversion Ho1 as [| | | | |w1 g1 nm1 elems1 Hv1 Hw1 Hn1 Hb1 Hk1];
    subst; try discriminate Hp1.
  injection Hp1 as <-. clear Ho1 Hc1.
  set (ty1 := dispatched_tuple src1 FLOAT32 store_transposed1) in *.
  set (h1 := handle_of ty1 _ _) in *.
  pose proof (create_outcomes properties2 src2 dst2 weights2
                store_transposed2 renumber2 check2 (constructed m ty1 g1 elems1 h1)) as Ho2.
  rewrite Hc2 in Ho2.
  inversion Ho2 as [| | | | |w2 g2 nm2 elems2 Hv2 Hw2 Hn2 Hb2 Hk2];
    subst; try discriminate Hp2.
  injection Hp2 as <-. clear Ho2 Hc2.
  set (ty2 := dispatched_tuple src2 FLOAT32 store_transposed2) in *.
  set (h2 := handle_of ty2 _ _) in *.
  set (mB := constructed (constructed m ty1 g1 elems1 h1) ty2 g2 elems2 h2).
  split; [cbn [next constructed]; lia|].
  assert (Hs1 : stored_tuple h1 = ty1).
  { unfold stored_tuple, h1, handle_of, ty1, dispatched_tuple. cbn.
    cbn in Hwt1. by rewrite Hwt1. }
  assert (Hs2 : stored_tuple h2 = ty2).
  { unfold stored_tuple, h2, handle_of, ty2, dispatched_tuple. cbn.
    cbn in Hwt2. by rewrite Hwt2. }
  assert (Hr1 : releasable mB (S (S (next m))) h1).
  { unfold releasable. rewrite Hs1.
    unfold mB, constructed, abandoned.
    cbn [cells next graph_ number_map_ vertex_type_ h1 h2 handle_of].
    split; [by map_lookup|]. split; eexists; map_lookup; reflexivity. }
  assert (Hr2 : releasable (released mB (S (S (next m))) h1)
                  (S (S (S (S (S (next m)))))) h2).
  { unfold releasable. rewrite Hs2.
    unfold released, mB, constructed, abandoned.
    cbn [cells next graph_ number_map_ vertex_type_ h1 h2 handle_of].
    split; [by map_lookup|]. split; eexists; map_lookup; reflexivity. }
  exists h2, (released mB (S (S (next m))) h1),
    (released (released mB (S (S (next m))) h1) (S (S (S (S (S (next m)))))) h2).
  split; [by apply free_releasable|].
  split; [apply (constructed_handle (constructed m ty1 g1 elems1 h1))|].
  unfold released, mB, constructed, abandoned.
  cbn [cells next graph_ number_map_ h1 h2 handle_of].
  split; [by map_lookup|].
  split; [by map_lookup|].
  split; [by map_lookup|].
  split; [exact (free_releasable _ _ _ Hr2)|].
  unfold released, mB, constructed, abandoned.
  cbn [cells next graph_ number_map_ h1 h2 handle_of].
  apply map_eq. intros i.
  destruct (decide (i = next m)) as [->|];
    [map_lookup; symmetry; apply fresh_above; [done|lia]|].
  destruct (decide (i = S (next m))) as [->|];
    [map_lookup; symmetry; apply fresh_above; [done|lia]|].
  destruct (decide (i = S (S (next m)))) as [->|];
    [map_lookup; symmetry; apply fresh_above; [done|lia]|].
  destruct (decide (i = S (S (S (next m))))) as [->|];
    [map_lookup; symmetry; apply fresh_above; [done|lia]|].
  destruct (decide (i = S (S (S (S (next m)))))) as [->|];
    [map_lookup; symmetry; apply fresh_above; [done|lia]|].
  destruct (decide (i = S (S (S (S (S (next m))))))) as [->|];
    [map_lookup; symmetry; apply fresh_above; [done|lia]|].
  by map_lookup.
Qed.

Lemma two_graphs_are_released_independently_witness :
  well_formed empty_memory ∧
  ∃ r1 m1 r2 m2,
    test_graph_call false false empty_memory = Returns r1 m1 ∧
    graph_out r1 = Some 2 ∧
    test_graph_call true false m1 = Returns r2 m2 ∧
    graph_out r2 = Some 5 ∧
    2 ≠ 5 ∧
    ∃ h2 m3 m4,
      cugraph_sg_graph_free 2 m2 = Returns tt m3 ∧
      cells m2 !! 5 = Some (GraphHandle h2) ∧
      cells m3 !! 5 = cells m2 !! 5 ∧
      cells m3 !! graph_ h2 = cells m2 !! graph_ h2 ∧
      cells m3 !! number_map_ h2 = cells m2 !! number_map_ h2 ∧
      cugraph_sg_graph_free 5 m3 = Returns tt m4 ∧
      cells m4 = cells empty_memory.
Proof.
  split; [exact empty_memory_well_formed|].
  eexists _, _, _, _. split; [vm_compute; reflexivity|]. split; [reflexivity|].
  split; [vm_compute; reflexivity|]. split; [reflexivity|].
  eapply (two_graphs_are_released_independently
            no_properties (array_of INT32 h_src) (array_of INT32 h_dst)
            (Some (array_of FLOAT32 h_wgt)) true false false
            no_properties (array_of INT32 h_src) (array_of INT32 h_dst)
            (Some (array_of FLOAT32 h_wgt)) true true false
            empty_memory).
  - exact empty_memory_well_formed.
  - vm_compute; reflexivity.
  - reflexivity.
  - vm_compute; reflexivity.
  - reflexivity.
  - reflexivity.
  - reflexivity.
Defined.

(** * Part VI: the process grid and the edge comparison of the symmetrize test *)

Lemma while_not_divisor_spec (comm_size : Z) (start : nat) :
  (1 ≤ comm_size)%Z → (1 ≤ start)%nat →
  ∃ r,
    while_not_divisor comm_size start = Some r ∧
    (1 ≤ r ≤ start)%nat ∧
    (Z.of_nat r | comm_size)%Z ∧
    ∀ d : nat, (r < d ≤ start)%nat → ¬ (Z.of_nat d | comm_size)%Z.
Proof.
  intros Hc. induction start as [|start IH]; [lia|]. intros _.
  cbn [while_not_divisor].
  destruct (Z.eqb_spec (Z.rem comm_size (Z.of_nat (S start))) 0) as [Hz|Hz]; cbn [negb].
  - exists (S start). split; [done|]. split; [lia|].
    split; [apply Z.rem_divide; [lia|done]|]. intros d Hd. lia.
  - assert (Hnd : ¬ (Z.of_nat (S start) | comm_size)%Z).
    { intros Hd. apply Hz. apply Z.rem_divide; [lia|done]. }
    destruct start as [|start'].
    { exfalso. apply Hnd. exists comm_size. lia. }
    destruct IH as (r & Hr & Hb & Hdiv & Hmax); [lia|].
    exists r. split; [done|]. split; [lia|]. split; [done|].
    intros d Hd. destruct (decide (d = S (S start'))) as [->|]; [done|].
    apply Hmax. lia.
Qed.

(** X13.  For a positive [comm_size] the loop ends on [r] exactly when [r]
    is the largest divisor of [comm_size] that does not exceed the start (so
    it ends for every positive start, and never above it). *)
Theorem while_not_divisor_largest_divisor (comm_size : Z) (start r : nat) :
  (1 ≤ comm_size)%Z →
  while_not_divisor comm_size start = Some r ↔
    (1 ≤ r ≤ start)%nat ∧
    (Z.of_nat r | comm_size)%Z ∧
    ∀ d : nat, (r < d ≤ start)%nat → ¬ (Z.of_nat d | comm_size)%Z.
Proof.
  intros Hc. split.
  - intros Hr. destruct start as [|start]; [done|].
    destruct (while_not_divisor_spec comm_size (S start)) as (r' & Hr' & Hspec); [done|lia|].
    rewrite Hr in Hr'. by injection Hr' as <-.
  - intros (Hb & Hdiv & Hmax).
    destruct (while_not_divisor_spec comm_size start)
      as (r' & Hr' & Hb' & Hdiv' & Hmax'); [done|lia|].
    rewrite Hr'. f_equal.
    destruct (decide (r' < r)%nat); [exfalso; apply (Hmax' r); [lia|done]|].
    destruct (decide (r < r')%nat); [exfalso; apply (Hmax r'); [lia|done]|].
    lia.
Qed.

Lemma while_not_divisor_largest_divisor_witness :
  (1 ≤ 12)%Z ∧
  (while_not_divisor 12 5 = Some 4 ↔
     (1 ≤ 4 ≤ 5)%nat ∧
     (Z.of_nat 4 | 12)%Z ∧
     ∀ d : nat, (4 < d ≤ 5)%nat → ¬ (Z.of_nat d | 12)%Z).
Proof.
  split; [lia|].
  apply (while_not_divisor_largest_divisor 12 5 4); lia.
Defined.

Lemma sqrt_positive (comm_size : Z) : (1 ≤ comm_size)%Z → (1 ≤ Z.sqrt comm_size)%Z.
Proof.
  intros Hc. pose proof (Z.sqrt_spec comm_size ltac:(lia)) as Hs. cbn zeta in Hs.
  destruct (decide (1 ≤ Z.sqrt comm_size)%Z); [done|].
  pose proof (Z.sqrt_nonneg comm_size). nia.
Qed.

(** X14.  For a positive number of processes the grid exists: the row size
    [r] is at least one, [r] times the column size [comm_size / r] is
    [comm_size], rows are not longer than columns, and [r] is the largest
    divisor of [comm_size] whose square does not exceed it. *)
Theorem row_comm_size_largest_divisor (comm_size : Z) :
  (1 ≤ comm_size)%Z →
  ∃ r,
    row_comm_size comm_size = Some r ∧
    (1 ≤ r)%nat ∧
    (Z.of_nat r * (comm_size / Z.of_nat r) = comm_size)%Z ∧
    (Z.of_nat r ≤ comm_size / Z.of_nat r)%Z ∧
    ∀ d : Z, (0 < d)%Z → (d | comm_size)%Z → (d * d ≤ comm_size)%Z → (d ≤ Z.of_nat r)%Z.
Proof.
  intros Hc. unfold row_comm_size.
  pose proof (Z.sqrt_spec comm_size ltac:(lia)) as Hs. cbn zeta in Hs.
  pose proof (sqrt_positive comm_size Hc) as Hs1.
  destruct (while_not_divisor_spec comm_size (Z.to_nat (Z.sqrt comm_size)))
    as (r & Hr & Hb & Hdiv & Hmax); [done|lia|].
  exists r. split; [done|]. split; [lia|].
  assert (Hrr : (Z.of_nat r * Z.of_nat r ≤ comm_size)%Z) by nia.
  destruct Hdiv as [q Hq].
  assert (Hdivq : (comm_size / Z.of_nat r = q)%Z).
  { subst comm_size. apply Z.div_mul. lia. }
  rewrite Hdivq. split; [lia|]. split; [nia|].
  intros d Hd0 Hd Hdd.
  destruct (decide (d ≤ Z.of_nat r)%Z); [done|]. exfalso.
  assert (d ≤ Z.sqrt comm_size)%Z by nia.
  apply (Hmax (Z.to_nat d)); [lia|]. by rewrite Z2Nat.id by lia.
Qed.

Lemma row_comm_size_largest_divisor_witness :
  (1 ≤ 12)%Z ∧
  ∃ r,
    row_comm_size 12 = Some r ∧
    (1 ≤ r)%nat ∧
    (Z.of_nat r * (12 / Z.of_nat r) = 12)%Z ∧
    (Z.of_nat r ≤ 12 / Z.of_nat r)%Z ∧
    ∀ d : Z, (0 < d)%Z → (d | 12)%Z → (d * d ≤ 12)%Z → (d ≤ Z.of_nat r)%Z.
Proof.
  split; [lia|].
  apply (row_comm_size_largest_divisor 12); lia.
Defined.

(** X15.  The row size is undefined exactly when [comm_size] is below one:
    the loop then reaches the remainder by zero. *)
Theorem row_comm_size_undefined_iff (comm_size : Z) :
  row_comm_size comm_size = None ↔ (comm_size < 1)%Z.
Proof.
  unfold row_comm_size. split.
  - intros Hn. destruct (decide (comm_size < 1)%Z); [done|].
    pose proof (sqrt_positive comm_size ltac:(lia)).
    destruct (while_not_divisor_spec comm_size (Z.to_nat (Z.sqrt comm_size)))
      as (r & Hr & _); [lia|lia|].
    congruence.
  - intros Hc.
    assert (Z.sqrt comm_size = 0)%Z as ->; [|done].
    destruct (decide (comm_size = 0%Z)) as [->|]; [done|].
    apply Z.sqrt_neg. lia.
Qed.

(** X16.  A square number of processes gives a square grid. *)
Theorem row_comm_size_of_square (k : Z) :
  (1 ≤ k)%Z → row_comm_size (k * k) = Some (Z.to_nat k).
Proof.
  intros Hk. unfold row_comm_size.
  rewrite Z.sqrt_square by lia.
  destruct (Z.to_nat k) as [|n] eqn:Hn; [lia|].
  cbn [while_not_divisor].
  replace (Z.of_nat (S n)) with k by lia.
  rewrite Z.rem_mul by lia. reflexivity.
Qed.

Lemma row_comm_size_of_square_witness :
  (1 ≤ 4)%Z ∧ row_comm_size (4 * 4) = Some (Z.to_nat 4).
Proof.
  split; [lia|].
  apply (row_comm_size_of_square 4); lia.
Defined.

#[local] Instance tuple_le_total : Total tuple_le.
Proof. intros [a1 a2] [b1 b2]. unfold tuple_le. cbn. lia. Qed.

#[local] Instance tuple_le_trans : Transitive tuple_le.
Proof. intros [a1 a2] [b1 b2] [c1 c2]. unfold tuple_le. cbn. lia. Qed.

#[local] Instance tuple_le_antisymm : AntiSymm (=) tuple_le.
Proof.
  intros [a1 a2] [b1 b2]. unfold tuple_le. cbn. intros H1 H2.
  f_equal; lia.
Qed.

Lemma update_host_exact (d : list Z) :
  update_host (length d) d (length d) = Some d.
Proof.
  unfold update_host. rewrite decide_True by lia.
  by rewrite Nat.sub_diag, app_nil_r, firstn_all.
Qed.

Lemma std_equal_same_length l1 l2 :
  length l1 = length l2 → std_equal l1 l2 = Some (bool_decide (l1 = l2)).
Proof.
  revert l2. induction l1 as [|x l1 IH]; intros [|y l2] Hl; try done.
  cbn. destruct (decide (x = y)) as [->|Hne].
  - rewrite IH by (cbn in Hl; lia). f_equal.
    apply bool_decide_ext. split; [by intros ->|by intros [= ->]].
  - f_equal. symmetry. apply bool_decide_eq_false. by intros [= -> _].
Qed.

Lemma std_sort_eq_iff l1 l2 : std_sort l1 = std_sort l2 ↔ l1 ≡ₚ l2.
Proof.
  unfold std_sort. split.
  - intros Heq. rewrite <- (merge_sort_Permutation tuple_le l1), Heq.
    apply merge_sort_Permutation.
  - intros Hp. apply (Sorted_unique tuple_le); try apply Sorted_merge_sort; try apply _.
    by rewrite !merge_sort_Permutation.
Qed.

(** X17.  When each side has as many columns as rows and both sides have the
    same number of edges, the unweighted comparison is defined and passes
    exactly when the aggregated multi-GPU edge list is a rearrangement of the
    single-GPU edge list. *)
Theorem compare_edges_iff_permutation d_mg_rows d_mg_cols d_sg_rows d_sg_cols :
  length d_mg_cols = length d_mg_rows →
  length d_sg_cols = length d_sg_rows →
  length d_sg_rows = length d_mg_rows →
  ∃ b,
    compare_edges d_mg_rows d_mg_cols d_sg_rows d_sg_cols = Some b ∧
    (b = true ↔ zip d_mg_rows d_mg_cols ≡ₚ zip d_sg_rows d_sg_cols).
Proof.
  intros Hm Hs Hl. unfold compare_edges.
  assert (E1 : update_host (length d_mg_rows) d_mg_rows (length d_mg_rows) = Some d_mg_rows)
    by apply update_host_exact.
  assert (E2 : update_host (length d_mg_rows) d_mg_cols (length d_mg_cols) = Some d_mg_cols)
    by (rewrite <- Hm; apply update_host_exact).
  assert (E3 : update_host (length d_sg_rows) d_sg_rows (length d_sg_rows) = Some d_sg_rows)
    by apply update_host_exact.
  assert (E4 : update_host (length d_sg_rows) d_sg_cols (length d_sg_cols) = Some d_sg_cols)
    by (rewrite <- Hs; apply update_host_exact).
  rewrite E1. cbn. rewrite E2. cbn. rewrite E3. cbn. rewrite E4. cbn.
  rewrite std_equal_same_length.
  2:{ unfold std_sort. rewrite !merge_sort_Permutation.
      rewrite !length_zip_with. lia. }
  eexists. split; [done|].
  rewrite bool_decide_eq_true. apply std_sort_eq_iff.
Qed.

Lemma compare_edges_iff_permutation_witness :
  length [1; 0; 2]%Z = length [0; 2; 1]%Z ∧
  length [2; 1; 0]%Z = length [1; 0; 2]%Z ∧
  length [1; 0; 2]%Z = length [0; 2; 1]%Z ∧
  ∃ b,
    compare_edges [0; 2; 1]%Z [1; 0; 2]%Z [1; 0; 2]%Z [2; 1; 0]%Z = Some b ∧
    (b = true ↔ zip [0; 2; 1]%Z [1; 0; 2]%Z ≡ₚ zip [1; 0; 2]%Z [2; 1; 0]%Z).
Proof.
  split; [reflexivity|]. split; [reflexivity|]. split; [reflexivity|].
  apply (compare_edges_iff_permutation [0; 2; 1]%Z [1; 0; 2]%Z [1; 0; 2]%Z [2; 1; 0]%Z);
    reflexivity.
Defined.
